(** * wot-live-win-rate: the session counters and the two wire protocols

    A shallow embedding of [main.js] in its two variants (the JSON-RPC
    batch protocol served on port 15455 and the tagged-envelope protocol
    served on port 61942).  Both variants share the state, the battle
    result parsing, [onBattleResult], [onDisconnect] and [render] word
    for word; they differ in [SERVER_ADDRESS], [onOpen] and [onMessage].

    Conventions of the model:
    - a JSON text is represented by the value [JSON.parse] builds from it;
    - JavaScript numbers that hold codes, team ids and counters are
      integers ([Z]); the session counters stay far below 2^53, where
      [++] is exact;
    - an exception leaves every mutation made before it in place, so a
      computation returns a completion together with the new world. *)

From Stdlib Require Import ZArith QArith.
From stdpp Require Import gmap strings list.

Set Warnings "-register-all".
Local Open Scope Z_scope.

(** ** JavaScript values *)

Module JS.

(** Values as [JSON.parse] produces them, plus [undefined], which a read
    of a missing property yields. *)
Inductive value : Type :=
  | JUndefined
  | JNull
  | JBool (b : bool)
  | JNum (n : Z)
  | JStr (s : string)
  | JArr (elems : list value)
  | JObj (fields : gmap string value).

(** An object literal. *)
Definition obj (kvs : list (string * value)) : value := JObj (list_to_map kvs).

Inductive error : Type := TypeError | SyntaxError | ReferenceError.

(** How the evaluation of an expression or a statement ends. *)
Inductive completion (A : Type) : Type :=
  | Normal (a : A)
  | Throw (e : error).
Arguments Normal {A} a.
Arguments Throw {A} e.

Definition cbind {A B} (c : completion A) (k : A -> completion B) : completion B :=
  match c with
  | Normal a => k a
  | Throw e => Throw e
  end.

(** ToBoolean. *)
Definition truthy (v : value) : bool :=
  match v with
  | JUndefined | JNull => false
  | JBool b => b
  | JNum n => negb (n =? 0)
  | JStr s => negb (String.eqb s "")
  | JArr _ | JObj _ => true
  end.

(** [a === b].  Primitives compare by type and value.  Objects and arrays
    compare by identity: [JSON.parse] allocates every node afresh, and the
    program only ever compares values read from two different places of
    one parsed tree or a value with a literal, so two objects are never
    the same one. *)
Definition strict_eq (a b : value) : bool :=
  match a, b with
  | JUndefined, JUndefined => true
  | JNull, JNull => true
  | JBool x, JBool y => Bool.eqb x y
  | JNum x, JNum y => x =? y
  | JStr x, JStr y => String.eqb x y
  | _, _ => false
  end.

(** [v.k] for the property names the program reads (none of them is a
    built-in property of strings, numbers, booleans or arrays): a
    TypeError on [undefined] and [null], the own property of an object,
    [undefined] otherwise. *)
Definition prop (v : value) (k : string) : completion value :=
  match v with
  | JUndefined | JNull => Throw TypeError
  | JObj fields => Normal (default JUndefined (fields !! k))
  | JBool _ | JNum _ | JStr _ | JArr _ => Normal JUndefined
  end.

(** [e.k] where [e] is itself an expression. *)
Definition member (e : completion value) (k : string) : completion value :=
  cbind e (fun v => prop v k).

(** [a && b]: [b] is only evaluated, and can only throw, when [a] is truthy. *)
Definition js_and (a b : completion value) : completion value :=
  cbind a (fun v => if truthy v then b else Normal v).

(** [a === b] as an expression. *)
Definition js_seq (a b : completion value) : completion value :=
  cbind a (fun x => cbind b (fun y => Normal (JBool (strict_eq x y)))).

(** [Array.isArray]. *)
Definition isArray (v : value) : bool :=
  match v with JArr _ => true | _ => false end.

(** The elements a [for ... of] loop visits: those of an array, the
    one-character strings of a string; nothing else that JSON can hold
    is iterable. *)
Definition iterate (v : value) : completion (list value) :=
  match v with
  | JArr elems => Normal elems
  | JStr s => Normal (map (fun c => JStr (String c EmptyString)) (String.list_ascii_of_string s))
  | _ => Throw TypeError
  end.

(** The result of a division of two counters.  The finite case keeps the
    exact quotient, of which JavaScript stores the nearest double. *)
Inductive number : Type :=
  | NaN
  | PosInfinity
  | NegInfinity
  | Finite (q : Q).

Definition js_div (a b : Z) : number :=
  if b =? 0 then
    if a =? 0 then NaN else if 0 <? a then PosInfinity else NegInfinity
  else Finite (inject_Z a / inject_Z b)%Q.

(** The payload of a message event: a JSON text, given by the value it
    parses to, or a text that is not JSON. *)
Inductive text : Type :=
  | Json (v : value)
  | Malformed.

Definition JSON_parse (data : text) : completion value :=
  match data with
  | Json v => Normal v
  | Malformed => Throw SyntaxError
  end.

End JS.
Export JS.

(** A value used where an expression is expected. *)
Definition lit (v : value) : completion value := Normal v.
Coercion lit : value >-> completion.

Declare Scope js_scope.
Delimit Scope js_scope with js.
Notation "e @. k" := (member e k) (at level 25, left associativity) : js_scope.
Notation "a === b" := (js_seq a b) (at level 70, no associativity) : js_scope.
Notation "a &&. b" := (js_and a b) (at level 74, left associativity) : js_scope.
Notation "'let!' x := c 'in' k" := (cbind c (fun x => k))
  (at level 10, x name, c at level 100, k at level 200) : js_scope.

(** ** Battle result parsing (identical in both variants) *)

Definition RANDOM_BATTLE : Z := 1.
Definition GRAND_BATTLE : Z := 24.

Definition getBattleType (battleResult : value) : completion value :=
  (battleResult &&. battleResult @. "common" &&. battleResult @. "common" @. "bonusType")%js.

Definition isRandomBattle (battleResult : value) : completion bool :=
  (let! battleType := getBattleType battleResult in
   Normal (strict_eq battleType (JNum RANDOM_BATTLE) || strict_eq battleType (JNum GRAND_BATTLE)))%js.

Definition getWinnerTeam (battleResult : value) : completion value :=
  (battleResult &&. battleResult @. "common" &&. battleResult @. "common" @. "winnerTeam")%js.

Definition getTeam (battleResult : value) : completion value :=
  (battleResult &&. battleResult @. "personal" &&. battleResult @. "personal" @. "avatar"
     &&. battleResult @. "personal" @. "avatar" @. "team")%js.

Definition isVictory (battleResult : value) : completion bool :=
  (let! team := getTeam battleResult in
   let! winner := getWinnerTeam battleResult in
   Normal (strict_eq team winner))%js.

(** ** State, effects and the statement monad *)

(** The presentation functions imported from [renderer.js]. *)
Class Renderer : Type := {
  renderTitle : number -> string;
  renderContent : number -> bool -> string;
  renderFavicon : number -> string
}.

(** What [render] writes: [document.title], [document.body.innerHTML] and
    the [href] of the [#favicon] element of the page. *)
Record page : Type := Page {
  title : string;
  innerHTML : string;
  favicon_href : string
}.

(** The functions registered as event listeners. *)
Inductive handler : Type := OnOpen | OnMessage | OnDisconnect.

(** What the program does to the outside, in the order it does it.
    [Rendered] notes a call of [render] with the state it read. *)
Inductive effect : Type :=
  | Rendered (victories losses : Z) (disconnected : bool)
  | ConsoleError (label : string) (arg : value)
  | Connected (address : string)
  | Sent (frame : text).

Record world : Type := World {
  victoryCount : Z;
  lossCount : Z;
  showDisconnectedHint : bool;
  document : option page;
  ws : option string;
  listeners : list (string * handler);
  log : list effect
}.

(** The state when the script starts: the [let] initialisers of the STATE
    block, the static page, no socket and no listener yet. *)
Definition initial : world :=
  {| victoryCount := 0; lossCount := 0; showDisconnectedHint := false;
     document := None; ws := None; listeners := []; log := [] |}.

Definition incr_victoryCount (w : world) : world :=
  World (victoryCount w + 1) (lossCount w) (showDisconnectedHint w)
        (document w) (ws w) (listeners w) (log w).

Definition incr_lossCount (w : world) : world :=
  World (victoryCount w) (lossCount w + 1) (showDisconnectedHint w)
        (document w) (ws w) (listeners w) (log w).

Definition set_showDisconnectedHint (b : bool) (w : world) : world :=
  World (victoryCount w) (lossCount w) b (document w) (ws w) (listeners w) (log w).

Definition set_document (p : page) (w : world) : world :=
  World (victoryCount w) (lossCount w) (showDisconnectedHint w)
        (Some p) (ws w) (listeners w) (log w).

Definition set_ws (address : string) (w : world) : world :=
  World (victoryCount w) (lossCount w) (showDisconnectedHint w)
        (document w) (Some address) (listeners w) (log w).

Definition add_listener (type : string) (h : handler) (w : world) : world :=
  World (victoryCount w) (lossCount w) (showDisconnectedHint w)
        (document w) (ws w) (listeners w ++ [(type, h)]) (log w).

Definition record (e : effect) (w : world) : world :=
  World (victoryCount w) (lossCount w) (showDisconnectedHint w)
        (document w) (ws w) (listeners w) (log w ++ [e]).

(** A statement: it ends normally or throws, and leaves a world behind
    either way. *)
Definition M (A : Type) : Type := world -> completion A * world.

Definition ret {A} (a : A) : M A := fun w => (Normal a, w).

Definition bind {A B} (m : M A) (k : A -> M B) : M B :=
  fun w => match m w with
           | (Normal a, w') => k a w'
           | (Throw e, w') => (Throw e, w')
           end.

Definition eval {A} (c : completion A) : M A := fun w => (c, w).
Definition gets {A} (f : world -> A) : M A := fun w => (Normal (f w), w).
Definition modify (f : world -> world) : M unit := fun w => (Normal tt, f w).

Declare Scope stmt_scope.
Delimit Scope stmt_scope with stmt.
Bind Scope stmt_scope with M.
Notation "'let*' x := c 'in' k" := (bind c (fun x => k))
  (at level 10, x name, c at level 100, k at level 200) : stmt_scope.
Notation "c1 ;; c2" := (bind c1 (fun _ => c2))
  (at level 100, c2 at level 200, right associativity) : stmt_scope.

Local Open Scope stmt_scope.

Fixpoint forEach (xs : list value) (body : value -> M unit) : M unit :=
  match xs with
  | [] => ret tt
  | x :: rest => body x;; forEach rest body
  end.

(** [for (const x of iterable) body]. *)
Definition for_of (iterable : completion value) (body : value -> M unit) : M unit :=
  let* v := eval iterable in
  let* xs := eval (iterate v) in
  forEach xs body.

(** [console.error(label, arg)]. *)
Definition console_error (label : string) (arg : completion value) : M unit :=
  let* v := eval arg in modify (record (ConsoleError label v)).

Definition JSON_stringify (v : value) : text := Json v.

(** [ws.send(frame)]; [ws] cannot be read before its declaration ran. *)
Definition ws_send (frame : text) : M unit :=
  let* socket := gets ws in
  match socket with
  | None => eval (Throw ReferenceError)
  | Some _ => modify (record (Sent frame))
  end.

(** [const ws = new WebSocket(address)]. *)
Definition new_WebSocket (address : string) : M unit :=
  modify (record (Connected address));; modify (set_ws address).

(** [ws.addEventListener(type, h)]. *)
Definition addEventListener (type : string) (h : handler) : M unit :=
  modify (add_listener type h).

(** ** Rendering and the handlers shared by both variants *)

Section Shared.
Context `{Renderer}.

Definition render : M unit :=
  let* victories := gets victoryCount in
  let* losses := gets lossCount in
  let* hint := gets showDisconnectedHint in
  modify (record (Rendered victories losses hint));;
  let winRate := js_div victories (losses + victories) in
  modify (set_document
            {| title := renderTitle winRate;
               innerHTML := renderContent winRate hint;
               favicon_href := renderFavicon winRate |}).

Definition onBattleResult (battleResult : value) : M unit :=
  let* random := eval (isRandomBattle battleResult) in
  if negb random then ret tt
  else
    let* victory := eval (isVictory battleResult) in
    (if victory then modify incr_victoryCount else modify incr_lossCount);;
    render.

Definition onDisconnect : M unit :=
  modify (set_showDisconnectedHint true);;
  render.

End Shared.

(** ** Socket events and their delivery *)

Inductive event : Type :=
  | Open
  | Message (data : text)
  | Close
  | Error.

Definition event_type (e : event) : string :=
  match e with
  | Open => "open"
  | Message _ => "message"
  | Close => "close"
  | Error => "error"
  end.

(** [event.data]; only message events carry a text that can parse. *)
Definition event_data (e : event) : text :=
  match e with
  | Message data => data
  | _ => Malformed
  end.

Definition listening (type : string) (table : list (string * handler)) : list handler :=
  map snd (List.filter (fun entry => String.eqb (fst entry) type) table).

Section EventLoop.
Context `{Renderer}.
Variable onOpen : M unit.
Variable onMessage : text -> M unit.

Definition call (h : handler) (e : event) : M unit :=
  match h with
  | OnOpen => onOpen
  | OnMessage => onMessage (event_data e)
  | OnDisconnect => onDisconnect
  end.

(** One event: every listener registered for its type runs; an exception
    ends that listener only and is reported by the host. *)
Definition dispatch (e : event) (w : world) : world :=
  fold_left (fun w' h => snd (call h e w')) (listening (event_type e) (listeners w)) w.

Definition run (events : list event) (w : world) : world :=
  fold_left (fun w' e => dispatch e w') events w.

End EventLoop.

(** The listeners both variants register in their INIT block. *)
Definition wire : M unit :=
  addEventListener "open" OnOpen;;
  addEventListener "message" OnMessage;;
  addEventListener "close" OnDisconnect;;
  addEventListener "error" OnDisconnect.

(** ** Variant A: JSON-RPC batches *)

Module VariantA.
Section Program.
Context `{Renderer}.

Definition SERVER_ADDRESS : string := "ws://localhost:15455".

Definition onOpen : M unit :=
  ws_send (JSON_stringify (JArr [
    obj [("jsonrpc", JStr "2.0"); ("method", JStr "get_battle_results"); ("id", JNum 1)];
    obj [("jsonrpc", JStr "2.0"); ("method", JStr "subscribe"); ("id", JNum 2)]
  ])).

Definition onJsonRpcMessage (message : value) : M unit :=
  let* is_subscription := eval (message @. "method" === JStr "subscription")%js in
  if truthy is_subscription then
    let* battleResult := eval (message @. "params" @. "battleResult")%js in
    onBattleResult battleResult
  else
    let* is_reply := eval (message @. "result" &&. message @. "id" === JNum 1)%js in
    if truthy is_reply then
      for_of (message @. "result" @. "battleResults")%js onBattleResult
    else
      let* is_error := eval (message @. "error")%js in
      if truthy is_error then
        console_error "Error:" (message @. "error")%js
      else ret tt.

Definition onMessage (data : text) : M unit :=
  let* parsed := eval (JSON_parse data) in
  if isArray parsed then
    for_of parsed onJsonRpcMessage
  else
    onJsonRpcMessage parsed.

Definition init : M unit :=
  render;;
  new_WebSocket SERVER_ADDRESS;;
  wire.

Definition boot : world := snd (init initial).
Definition dispatch : event -> world -> world := dispatch onOpen onMessage.
Definition run : list event -> world -> world := run onOpen onMessage.

End Program.
End VariantA.

(** ** Variant B: tagged envelopes *)

Module VariantB.
Section Program.
Context `{Renderer}.

Definition SERVER_ADDRESS : string := "ws://localhost:61942".

Definition onOpen : M unit :=
  ws_send (JSON_stringify (obj [("messageType", JStr "REPLAY"); ("payload", obj [])]));;
  ws_send (JSON_stringify (obj [("messageType", JStr "SUBSCRIBE"); ("payload", obj [])])).

Definition onMessage (data : text) : M unit :=
  let* message := eval (JSON_parse data) in
  let* is_result := eval (message @. "messageType" === JStr "BATTLE_RESULT")%js in
  if truthy is_result then
    let* battleResult := eval (message @. "payload" @. "result")%js in
    onBattleResult battleResult
  else
    let* is_error := eval (message @. "messageType" === JStr "ERROR")%js in
    if truthy is_error then
      console_error "Protocol Error:" (message @. "payload")%js
    else ret tt.

Definition init : M unit :=
  render;;
  new_WebSocket SERVER_ADDRESS;;
  wire.

Definition boot : world := snd (init initial).
Definition dispatch : event -> world -> world := dispatch onOpen onMessage.
Definition run : list event -> world -> world := run onOpen onMessage.

End Program.
End VariantB.

(** ** The record fields and the battle types, as the specification names them *)

(** The value found by following [path] through nested records, when
    every key on the way is there. *)
Fixpoint lookup_path (path : list string) (v : value) : option value :=
  match path with
  | [] => Some v
  | k :: rest =>
      match v with
      | JObj fields =>
          match fields !! k with
          | Some v' => lookup_path rest v'
          | None => None
          end
      | _ => None
      end
  end.

(** A key on the way is missing from the record that should hold it. *)
Fixpoint missing (path : list string) (v : value) : bool :=
  match path with
  | [] => false
  | k :: rest =>
      match v with
      | JObj fields =>
          match fields !! k with
          | Some v' => missing rest v'
          | None => true
          end
      | _ => false
      end
  end.

Definition bonusType_path : list string := ["common"; "bonusType"].
Definition winnerTeam_path : list string := ["common"; "winnerTeam"].
Definition team_path : list string := ["personal"; "avatar"; "team"].

Inductive BattleType : Type := RANDOM | GRAND | OTHER.

Definition battle_type (battleResult : value) : BattleType :=
  match lookup_path bonusType_path battleResult with
  | Some (JNum 1) => RANDOM
  | Some (JNum 24) => GRAND
  | _ => OTHER
  end.

Definition in_scope (battleResult : value) : bool :=
  match battle_type battleResult with
  | RANDOM | GRAND => true
  | OTHER => false
  end.

(** Strings, numbers, booleans, [null] and [undefined]. *)
Definition is_primitive (v : value) : bool :=
  match v with
  | JArr _ | JObj _ => false
  | _ => true
  end.

(** ** Notions used to state the properties *)

(** [v.k] where it cannot throw. *)
Definition field (k : string) (v : value) : value :=
  match prop v k with
  | Normal x => x
  | Throw _ => JUndefined
  end.

(** The value of a guarded access [v && v.k1 && v.k1.k2 ...]. *)
Fixpoint chain (path : list string) (v : value) : value :=
  match path with
  | [] => v
  | k :: rest => if truthy v then chain rest (field k v) else v
  end.

Definition sent_frames (l : list effect) : list text :=
  flat_map (fun e => match e with Sent frame => [frame] | _ => [] end) l.

Definition console (l : list effect) : list (string * value) :=
  flat_map (fun e => match e with ConsoleError label arg => [(label, arg)] | _ => [] end) l.

Definition renders (l : list effect) : list (Z * Z * bool) :=
  flat_map (fun e => match e with Rendered v l d => [(v, l, d)] | _ => [] end) l.

(** Every call of [render] noted in [l] saw the disconnected flag set. *)
Definition rendered_disconnected (l : list effect) : Prop :=
  Forall (fun call => snd call = true) (renders l).

(** Whether it returns or throws, [m] leaves a world related to the one
    it started in. *)
Definition keeps (R : world -> world -> Prop) {A} (m : M A) : Prop :=
  forall w, R w (snd (m w)).

(** A renderer with fixed texts, used where the model is run on a
    concrete input; the counters never depend on it. *)
Definition plain : Renderer :=
  {| renderTitle := fun rate => match rate with NaN => "no games" | _ => "win rate" end;
     renderContent := fun _ disconnected => if disconnected then "disconnected" else "connected";
     renderFavicon := fun _ => "favicon" |}.

Definition battle (bonus : Z) (fields : list (string * value)) (personal : list (string * value)) : value :=
  obj [("common", obj (("bonusType", JNum bonus) :: fields)); ("personal", obj personal)].

(** A random battle won by team 1, the player's team. *)
Definition won_battle : value :=
  battle 1 [("winnerTeam", JNum 1)] [("avatar", obj [("team", JNum 1)])].

(** A grand battle lost by team 1 to team 2. *)
Definition lost_battle : value :=
  battle 24 [("winnerTeam", JNum 2)] [("avatar", obj [("team", JNum 1)])].

(** A random battle whose record names no team at all. *)
Definition teamless_battle : value := obj [("common", obj [("bonusType", JNum 1)])].

(** A random battle that names no team and has [null] for its personal
    record. *)
Definition null_personal_battle : value :=
  obj [("common", obj [("bonusType", JNum 1)]); ("personal", JNull)].

(** A battle of a type that is not counted. *)
Definition skirmish : value :=
  battle 5 [("winnerTeam", JNum 1)] [("avatar", obj [("team", JNum 1)])].

(** Messages of variant A: a notification, the reply to
    [get_battle_results], the reply to [subscribe], and an error. *)
Definition notification (battleResult : value) : value :=
  obj [("jsonrpc", JStr "2.0"); ("method", JStr "subscription");
       ("params", obj [("battleResult", battleResult)])].

Definition history_reply (results : list value) : value :=
  obj [("jsonrpc", JStr "2.0"); ("result", obj [("battleResults", JArr results)]);
       ("id", JNum 1)].

Definition subscribe_reply : value :=
  obj [("jsonrpc", JStr "2.0"); ("result", JBool true); ("id", JNum 2)].

Definition rpc_error : value :=
  obj [("code", JNum (-32601)); ("message", JStr "Method not found")].

Definition error_reply : value :=
  obj [("jsonrpc", JStr "2.0"); ("error", rpc_error); ("id", JNum 2)].

Definition sample_batch : value :=
  JArr [history_reply [won_battle; lost_battle]; subscribe_reply;
        notification won_battle; error_reply].

(** A notification and a reply to request 1 that also carry an error. *)
Definition notification_with_error : gmap string value :=
  list_to_map [("method", JStr "subscription");
               ("params", obj [("battleResult", won_battle)]);
               ("error", rpc_error)].

Definition reply_with_error : gmap string value :=
  list_to_map [("result", obj [("battleResults", JArr [lost_battle])]);
               ("id", JNum 1);
               ("error", rpc_error)].

(** Messages of variant B. *)
Definition result_envelope (battleResult : value) : value :=
  obj [("messageType", JStr "BATTLE_RESULT"); ("payload", obj [("result", battleResult)])].

Definition error_envelope : value :=
  obj [("messageType", JStr "ERROR"); ("payload", JStr "unknown command")].

(** Neither counter is lower in [w'] than in [w]. *)
Definition counters_le (w w' : world) : Prop :=
  victoryCount w <= victoryCount w' /\ lossCount w <= lossCount w'.

(** The listener table after the INIT block. *)
Definition wiring : list (string * handler) :=
  [("open", OnOpen); ("message", OnMessage); ("close", OnDisconnect); ("error", OnDisconnect)].

(** The one handler [wiring] gives an event. *)
Definition handler_of (e : event) : handler :=
  match e with
  | Open => OnOpen
  | Message _ => OnMessage
  | Close | Error => OnDisconnect
  end.

(** The socket and its listeners are the same in [w'] as in [w]. *)
Definition same_wiring (w w' : world) : Prop :=
  listeners w' = listeners w /\ ws w' = ws w.

(** Once the flag is set in [w] it is set in [w'], and every call of
    [render] between the two saw it set. *)
Definition stays_disconnected (w w' : world) : Prop :=
  showDisconnectedHint w = true ->
  showDisconnectedHint w' = true /\
  exists later, log w' = log w ++ later /\ rendered_disconnected later.

(** After event [e], whatever came before it and whatever comes after:
    the flag is set, stays set, and every call of [render] from the
    handling of [e] on saw it set. *)
Definition disconnect_is_final (boot : world) (dispatch : event -> world -> world)
    (run : list event -> world -> world) (e : event) : Prop :=
  forall before after,
    let w0 := run before boot in
    let w1 := dispatch e w0 in
    let w2 := run after w1 in
    showDisconnectedHint w1 = true /\
    showDisconnectedHint w2 = true /\
    exists later,
      log w2 = log w0 ++ later /\ renders later <> [] /\ rendered_disconnected later.

(** The win rate as the specification gives it: victories over games,
    not a number when no game was counted. *)
Definition win_rate (victories losses : Z) : number :=
  if (victories =? 0) && (losses =? 0) then NaN
  else Finite (inject_Z victories / inject_Z (victories + losses))%Q.

(** The two JSON-RPC requests of the handshake of variant A. *)
Definition get_battle_results_request : value :=
  obj [("jsonrpc", JStr "2.0"); ("method", JStr "get_battle_results"); ("id", JNum 1)].

Definition subscribe_request : value :=
  obj [("jsonrpc", JStr "2.0"); ("method", JStr "subscribe"); ("id", JNum 2)].

(** The two commands of the handshake of variant B. *)
Definition replay_command : value := obj [("messageType", JStr "REPLAY"); ("payload", obj [])].

Definition subscribe_command : value := obj [("messageType", JStr "SUBSCRIBE"); ("payload", obj [])].

(** The frames sent are the same in [w'] as in [w]. *)
Definition nothing_sent (w w' : world) : Prop :=
  sent_frames (log w') = sent_frames (log w).

(** What a decoded message asks for. *)
Inductive action : Type :=
  | Process (battleResult : value)
  | LogError (payload : value).

(** Key [k] of record [m] holds the string [s]. *)
Definition key_is_string (k s : string) (m : value) : bool :=
  match lookup_path [k] m with
  | Some (JStr x) => String.eqb x s
  | _ => false
  end.

(** Key [k] of record [m] holds the number [n]. *)
Definition key_is_number (k : string) (n : Z) (m : value) : bool :=
  match lookup_path [k] m with
  | Some (JNum x) => x =? n
  | _ => false
  end.

(** Record [m] has key [k]. *)
Definition has_key (k : string) (m : value) : bool :=
  match lookup_path [k] m with
  | Some _ => true
  | None => false
  end.

(** Variant A, one response object: (i) a notification, (ii) the reply
    to request 1, (iii) an error, (iv) anything else. *)
Definition decode_object (m : value) : list action :=
  if key_is_string "method" "subscription" m then
    match lookup_path ["params"; "battleResult"] m with
    | Some r => [Process r]
    | None => []
    end
  else if has_key "result" m && key_is_number "id" 1 m then
    match lookup_path ["result"; "battleResults"] m with
    | Some (JArr results) => map Process results
    | _ => []
    end
  else
    match lookup_path ["error"] m with
    | Some e => [LogError e]
    | None => []
    end.

(** Variant A, one frame: a batch, or one object standing for a batch
    of one. *)
Definition decode_frame (parsed : value) : list action :=
  match parsed with
  | JArr messages => flat_map decode_object messages
  | m => decode_object m
  end.

(** Variant B, one frame. *)
Definition decode_envelope (m : value) : list action :=
  if key_is_string "messageType" "BATTLE_RESULT" m then
    match lookup_path ["payload"; "result"] m with
    | Some r => [Process r]
    | None => []
    end
  else if key_is_string "messageType" "ERROR" m then [LogError (field "payload" m)]
  else [].

(** The expected shape of a response object of variant A: the part its
    class is read from is there and has the type JSON-RPC gives it. *)
Definition wf_message (m : value) : bool :=
  match m with
  | JObj fields =>
      if key_is_string "method" "subscription" m then
        match fields !! "params" with
        | Some (JObj _) => true
        | _ => false
        end
      else if has_key "result" m && key_is_number "id" 1 m then
        match lookup_path ["result"; "battleResults"] m with
        | Some (JArr _) => true
        | _ => false
        end
      else
        match fields !! "error" with
        | Some e => truthy e
        | None => true
        end
  | _ => false
  end.

Definition wf_frame (parsed : value) : bool :=
  match parsed with
  | JArr messages => forallb wf_message messages
  | m => wf_message m
  end.

(** [w'] is [w] with the given lines added to the console and nothing
    else changed. *)
Definition only_logs (label : string) (lines : list value) (w w' : world) : Prop :=
  victoryCount w' = victoryCount w /\
  lossCount w' = lossCount w /\
  showDisconnectedHint w' = showDisconnectedHint w /\
  document w' = document w /\
  ws w' = ws w /\
  listeners w' = listeners w /\
  log w' = log w ++ map (ConsoleError label) lines.

(** The console lines are the same in [w'] as in [w]. *)
Definition nothing_logged (w w' : world) : Prop :=
  console (log w') = console (log w).

Section Expected.
Context {renderer : Renderer}.

(** The page [render] writes for the counters and the flag of [w]. *)
Definition page_of (w : world) : page :=
  let winRate := js_div (victoryCount w) (lossCount w + victoryCount w) in
  {| title := renderTitle winRate;
     innerHTML := renderContent winRate (showDisconnectedHint w);
     favicon_href := renderFavicon winRate |}.

Definition after_render (w : world) : world :=
  set_document (page_of w)
    (record (Rendered (victoryCount w) (lossCount w) (showDisconnectedHint w)) w).

(** The world the INIT block leaves, given the address it connects to. *)
Definition booted (address : string) : world :=
  {| victoryCount := 0; lossCount := 0; showDisconnectedHint := false;
     document := Some {| title := renderTitle NaN;
                         innerHTML := renderContent NaN false;
                         favicon_href := renderFavicon NaN |};
     ws := Some address;
     listeners := wiring;
     log := [Rendered 0 0 false; Connected address] |}.

(** Carrying out decoded actions, first to last. *)
Definition perform (label : string) (a : action) : M unit :=
  match a with
  | Process battleResult => onBattleResult battleResult
  | LogError payload => modify (record (ConsoleError label payload))
  end.

Fixpoint perform_all (label : string) (actions : list action) : M unit :=
  match actions with
  | [] => ret tt
  | a :: rest => perform label a;; perform_all label rest
  end.

End Expected.

(** ** Notions used for the further properties *)

(** [null] or [undefined]: the values a property read throws on. *)
Definition nullish (v : value) : bool :=
  match v with
  | JUndefined | JNull => true
  | _ => false
  end.

(** The values a [for ... of] loop accepts. *)
Definition iterable (v : value) : bool :=
  match v with
  | JArr _ | JStr _ => true
  | _ => false
  end.

(** The messages [onJsonRpcMessage] fails on: [null]; a notification
    whose [params] is [null] or not there; the reply to request 1 whose
    truthy [result] holds nothing to iterate under [battleResults]. *)
Definition rejected_A (m : value) : bool :=
  nullish m ||
  (if strict_eq (field "method" m) (JStr "subscription") then
     nullish (field "params" m)
   else
     truthy (field "result" m) && strict_eq (field "id" m) (JNum 1)
     && negb (iterable (field "battleResults" (field "result" m)))).

(** The frames [onMessage] of variant B fails on: [null], and a
    BATTLE_RESULT whose [payload] is [null] or not there. *)
Definition rejected_B (m : value) : bool :=
  nullish m ||
  (strict_eq (field "messageType" m) (JStr "BATTLE_RESULT") && nullish (field "payload" m)).

(** A battle result the program counts as a victory, and one it counts
    as a loss or draw. *)
Definition won (battleResult : value) : bool :=
  match isRandomBattle battleResult, isVictory battleResult with
  | Normal true, Normal true => true
  | _, _ => false
  end.

Definition lost (battleResult : value) : bool :=
  match isRandomBattle battleResult, isVictory battleResult with
  | Normal true, Normal false => true
  | _, _ => false
  end.

(** The sockets constructed, by address. *)
Definition connections (l : list effect) : list string :=
  flat_map (fun e => match e with Connected address => [address] | _ => [] end) l.

(** A close or an error event. *)
Definition is_disconnect (e : event) : bool :=
  match e with
  | Close | Error => true
  | Open | Message _ => false
  end.

(** A win rate a page can show: not a number, or a fraction from 0 to 1. *)
Definition unit_rate (rate : number) : Prop :=
  match rate with
  | NaN => True
  | Finite q => (0 <= q /\ q <= 1)%Q
  | PosInfinity | NegInfinity => False
  end.

(** Property [P] passes from [w] to [w']. *)
Definition passes (P : world -> Prop) (w w' : world) : Prop := P w -> P w'.

(** The same socket was constructed in [w'] as in [w]. *)
Definition same_connections (w w' : world) : Prop :=
  connections (log w') = connections (log w).

(** The disconnected flag is the same in [w'] as in [w]. *)
Definition same_flag (w w' : world) : Prop :=
  showDisconnectedHint w' = showDisconnectedHint w.

(** One message event per element of a batch. *)
Definition one_by_one (messages : list value) : list event :=
  map (fun m => Message (Json m)) messages.

Section ExpectedPage.
Context {renderer : Renderer}.

(** The page shows the counters and the flag of the state. *)
Definition page_is_current (w : world) : Prop := document w = Some (page_of w).

End ExpectedPage.

(** ** Facts about the JavaScript operators *)

Lemma strict_eq_refl_primitive v : is_primitive v = true -> strict_eq v v = true.
Proof.
  destruct v; simpl; try discriminate; intros _; trivial.
  - apply eqb_reflx.
  - apply Z.eqb_refl.
  - apply String.eqb_refl.
Qed.

Lemma prop_obj fields k : prop (JObj fields) k = Normal (default JUndefined (fields !! k)).
Proof. reflexivity. Qed.

Lemma prop_truthy v k : truthy v = true -> exists x, prop v k = Normal x.
Proof. destruct v; simpl; try discriminate; eauto. Qed.

Lemma prop_field v k : truthy v = true -> prop v k = Normal (field k v).
Proof. unfold field. destruct v; simpl; try discriminate; reflexivity. Qed.

Lemma field_obj fields k : field k (JObj fields) = default JUndefined (fields !! k).
Proof. reflexivity. Qed.

Lemma chain_undefined path : chain path JUndefined = JUndefined.
Proof. destruct path; reflexivity. Qed.

Lemma chain_lookup path : forall v t,
  lookup_path path v = Some t -> path <> [] -> chain path v = t.
Proof.
  induction path as [|k rest IH]; intros v t Hl Hne; [congruence|].
  simpl in Hl. destruct v; try discriminate.
  destruct (fields !! k) as [v'|] eqn:Hk; [|discriminate].
  simpl. rewrite field_obj, Hk. simpl.
  destruct rest as [|k' rest'].
  - simpl in *. congruence.
  - apply IH; [assumption|discriminate].
Qed.

Lemma chain_missing path : forall v, missing path v = true -> chain path v = JUndefined.
Proof.
  induction path as [|k rest IH]; intros v Hm; [discriminate|].
  simpl in Hm. destruct v; try discriminate.
  simpl. rewrite field_obj.
  destruct (fields !! k) as [v'|] eqn:Hk; simpl.
  - destruct rest as [|k' rest']; [discriminate|]. apply IH. assumption.
  - apply chain_undefined.
Qed.

(** A guarded access only yields a truthy value that is really stored
    at the end of the path. *)
Lemma chain_truthy path : forall v,
  path <> [] -> truthy (chain path v) = true -> lookup_path path v = Some (chain path v).
Proof.
  induction path as [|k rest IH]; intros v Hne Ht; [congruence|].
  cbn [chain lookup_path] in *.
  destruct (truthy v) eqn:Hv; [|rewrite Hv in Ht; discriminate].
  destruct v; try discriminate; unfold field in *; cbn [prop] in *;
    try (rewrite chain_undefined in Ht; discriminate).
  destruct (fields !! k) as [v'|] eqn:Hk; cbn [default from_option] in *.
  - destruct rest as [|k' rest']; [reflexivity|]. apply IH; [discriminate|assumption].
  - rewrite chain_undefined in Ht. discriminate.
Qed.

(** ** The classifier never throws *)

Ltac split_guard v :=
  let E := fresh "E" in
  destruct (truthy v) eqn:E;
  repeat first [progress cbn [cbind] | rewrite E | rewrite (prop_field v) by exact E];
  try reflexivity.

Lemma getBattleType_chain r : getBattleType r = Normal (chain bonusType_path r).
Proof.
  unfold getBattleType, js_and, member, lit, bonusType_path. simpl.
  split_guard r. split_guard (field "common" r).
Qed.

Lemma getWinnerTeam_chain r : getWinnerTeam r = Normal (chain winnerTeam_path r).
Proof.
  unfold getWinnerTeam, js_and, member, lit, winnerTeam_path. simpl.
  split_guard r. split_guard (field "common" r).
Qed.

Lemma getTeam_chain r : getTeam r = Normal (chain team_path r).
Proof.
  unfold getTeam, js_and, member, lit, team_path. simpl.
  split_guard r. split_guard (field "personal" r).
  split_guard (field "avatar" (field "personal" r)).
Qed.

Lemma isRandomBattle_chain r :
  isRandomBattle r =
  Normal (strict_eq (chain bonusType_path r) (JNum RANDOM_BATTLE)
          || strict_eq (chain bonusType_path r) (JNum GRAND_BATTLE)).
Proof. unfold isRandomBattle. rewrite getBattleType_chain. reflexivity. Qed.

Lemma isVictory_chain r :
  isVictory r = Normal (strict_eq (chain team_path r) (chain winnerTeam_path r)).
Proof. unfold isVictory. rewrite getTeam_chain, getWinnerTeam_chain. reflexivity. Qed.

(** [isRandomBattle] computes the specification's in-scope test. *)
Lemma isRandomBattle_in_scope r : isRandomBattle r = Normal (in_scope r).
Proof.
  rewrite isRandomBattle_chain. f_equal.
  unfold in_scope, battle_type, RANDOM_BATTLE, GRAND_BATTLE.
  destruct (lookup_path bonusType_path r) as [t|] eqn:Hl.
  - rewrite (chain_lookup _ _ _ Hl) by discriminate.
    destruct t as [| |b|n|s|l|m]; try reflexivity.
    simpl. destruct n as [|[p|p|]|p]; try reflexivity;
      repeat (destruct p as [p|p|]; try reflexivity).
  - destruct (truthy (chain bonusType_path r)) eqn:Ht.
    + rewrite chain_truthy in Hl; [discriminate|discriminate|assumption].
    + destruct (chain bonusType_path r) as [| |b|n|s|l|m]; try reflexivity.
      simpl in Ht. destruct (Z.eqb_spec n 0); [subst; reflexivity|discriminate].
Qed.

(** ** Reading the log *)

Lemma sent_frames_app l1 l2 : sent_frames (l1 ++ l2) = sent_frames l1 ++ sent_frames l2.
Proof. apply flat_map_app. Qed.

Lemma console_app l1 l2 : console (l1 ++ l2) = console l1 ++ console l2.
Proof. apply flat_map_app. Qed.

Lemma renders_app l1 l2 : renders (l1 ++ l2) = renders l1 ++ renders l2.
Proof. apply flat_map_app. Qed.

(** ** What one call of the shared handlers does *)

Section Behaviour.
Context {renderer : Renderer}.

Lemma render_runs w : render w = (Normal tt, after_render w).
Proof. reflexivity. Qed.

Lemma onBattleResult_runs r w :
  onBattleResult r w =
  if in_scope r then
    if strict_eq (chain team_path r) (chain winnerTeam_path r)
    then (Normal tt, after_render (incr_victoryCount w))
    else (Normal tt, after_render (incr_lossCount w))
  else (Normal tt, w).
Proof.
  unfold onBattleResult, bind, eval.
  rewrite isRandomBattle_in_scope.
  destruct (in_scope r); [|reflexivity].
  cbn [negb]. rewrite isVictory_chain.
  destruct (strict_eq _ _); reflexivity.
Qed.

Lemma onDisconnect_runs w :
  onDisconnect w = (Normal tt, after_render (set_showDisconnectedHint true w)).
Proof. reflexivity. Qed.

(** A value that is not a record of an in-scope battle is passed over. *)
Lemma onBattleResult_skip r w : in_scope r = false -> onBattleResult r w = (Normal tt, w).
Proof. intros Hs. rewrite onBattleResult_runs, Hs. reflexivity. Qed.

End Behaviour.

(** ** Relations every statement of the program keeps *)

Section Preservation.
Context {renderer : Renderer}.
Variable R : world -> world -> Prop.
Hypothesis R_refl : forall w, R w w.
Hypothesis R_trans : forall a b c, R a b -> R b c -> R a c.

Lemma keeps_ret {A} (a : A) : keeps R (ret a).
Proof. intros w. apply R_refl. Qed.

Lemma keeps_eval {A} (c : completion A) : keeps R (eval c).
Proof. intros w. apply R_refl. Qed.

Lemma keeps_gets {A} (f : world -> A) : keeps R (gets f).
Proof. intros w. apply R_refl. Qed.

Lemma keeps_modify f : (forall w, R w (f w)) -> keeps R (modify f).
Proof. intros Hf w. apply Hf. Qed.

Lemma keeps_bind {A B} (m : M A) (k : A -> M B) :
  keeps R m -> (forall a, keeps R (k a)) -> keeps R (bind m k).
Proof.
  intros Hm Hk w. unfold bind.
  specialize (Hm w). destruct (m w) as [[a|e] w']; simpl in *.
  - eapply R_trans; [exact Hm|apply Hk].
  - exact Hm.
Qed.

Lemma keeps_forEach xs body : (forall x, keeps R (body x)) -> keeps R (forEach xs body).
Proof.
  intros Hb. induction xs as [|x rest IH]; simpl.
  - apply keeps_ret.
  - apply keeps_bind; [apply Hb|intros _; exact IH].
Qed.

Lemma keeps_for_of iterable body : (forall x, keeps R (body x)) -> keeps R (for_of iterable body).
Proof.
  intros Hb. unfold for_of.
  apply keeps_bind; [apply keeps_eval|intros v].
  apply keeps_bind; [apply keeps_eval|intros xs].
  apply keeps_forEach, Hb.
Qed.

Hypothesis R_rendered : forall w,
  R w (record (Rendered (victoryCount w) (lossCount w) (showDisconnectedHint w)) w).
Hypothesis R_document : forall p w, R w (set_document p w).

Lemma keeps_render : keeps R render.
Proof.
  intros w. rewrite render_runs. unfold after_render. simpl.
  eapply R_trans; [apply R_rendered|apply R_document].
Qed.

Hypothesis R_victory : forall w, R w (incr_victoryCount w).
Hypothesis R_loss : forall w, R w (incr_lossCount w).

Lemma keeps_onBattleResult r : keeps R (onBattleResult r).
Proof.
  unfold onBattleResult.
  apply keeps_bind; [apply keeps_eval|intros random].
  destruct (negb random); [apply keeps_ret|].
  apply keeps_bind; [apply keeps_eval|intros victory].
  apply keeps_bind; [|intros _; apply keeps_render].
  destruct victory; apply keeps_modify; assumption.
Qed.

Hypothesis R_hint : forall w, R w (set_showDisconnectedHint true w).

Lemma keeps_onDisconnect : keeps R onDisconnect.
Proof.
  unfold onDisconnect.
  apply keeps_bind; [apply keeps_modify, R_hint|intros _; apply keeps_render].
Qed.

Hypothesis R_error : forall label arg w, R w (record (ConsoleError label arg) w).

Lemma keeps_console_error label arg : keeps R (console_error label arg).
Proof.
  unfold console_error.
  apply keeps_bind; [apply keeps_eval|intros v; apply keeps_modify, R_error].
Qed.

Lemma keeps_onJsonRpcMessage message : keeps R (VariantA.onJsonRpcMessage message).
Proof.
  unfold VariantA.onJsonRpcMessage.
  apply keeps_bind; [apply keeps_eval|intros c1].
  destruct (truthy c1).
  - apply keeps_bind; [apply keeps_eval|intros r; apply keeps_onBattleResult].
  - apply keeps_bind; [apply keeps_eval|intros c2].
    destruct (truthy c2).
    + apply keeps_for_of, keeps_onBattleResult.
    + apply keeps_bind; [apply keeps_eval|intros c3].
      destruct (truthy c3); [apply keeps_console_error|apply keeps_ret].
Qed.

Lemma keeps_onMessage_A data : keeps R (VariantA.onMessage data).
Proof.
  unfold VariantA.onMessage.
  apply keeps_bind; [apply keeps_eval|intros parsed].
  destruct (isArray parsed).
  - apply keeps_for_of, keeps_onJsonRpcMessage.
  - apply keeps_onJsonRpcMessage.
Qed.

Lemma keeps_onMessage_B data : keeps R (VariantB.onMessage data).
Proof.
  unfold VariantB.onMessage.
  apply keeps_bind; [apply keeps_eval|intros message].
  apply keeps_bind; [apply keeps_eval|intros c1].
  destruct (truthy c1).
  - apply keeps_bind; [apply keeps_eval|intros r; apply keeps_onBattleResult].
  - apply keeps_bind; [apply keeps_eval|intros c2].
    destruct (truthy c2); [apply keeps_console_error|apply keeps_ret].
Qed.

Hypothesis R_sent : forall frame w, R w (record (Sent frame) w).

Lemma keeps_ws_send frame : keeps R (ws_send frame).
Proof.
  unfold ws_send.
  apply keeps_bind; [apply keeps_gets|intros [address|]].
  - apply keeps_modify, R_sent.
  - apply keeps_eval.
Qed.

Lemma keeps_onOpen_A : keeps R VariantA.onOpen.
Proof. apply keeps_ws_send. Qed.

Lemma keeps_onOpen_B : keeps R VariantB.onOpen.
Proof.
  unfold VariantB.onOpen.
  apply keeps_bind; [apply keeps_ws_send|intros _; apply keeps_ws_send].
Qed.

Lemma keeps_fold {X} (f : X -> M unit) (xs : list X) :
  (forall x, keeps R (f x)) ->
  forall w, R w (fold_left (fun w' x => snd (f x w')) xs w).
Proof.
  intros Hf. induction xs as [|x rest IH]; intros w; simpl.
  - apply R_refl.
  - eapply R_trans; [apply Hf|apply IH].
Qed.

Lemma keeps_dispatch_A e w : R w (VariantA.dispatch e w).
Proof.
  unfold VariantA.dispatch, dispatch.
  apply (keeps_fold (fun h => call VariantA.onOpen VariantA.onMessage h e)).
  intros [| |]; simpl;
    [apply keeps_onOpen_A|apply keeps_onMessage_A|apply keeps_onDisconnect].
Qed.

Lemma keeps_dispatch_B e w : R w (VariantB.dispatch e w).
Proof.
  unfold VariantB.dispatch, dispatch.
  apply (keeps_fold (fun h => call VariantB.onOpen VariantB.onMessage h e)).
  intros [| |]; simpl;
    [apply keeps_onOpen_B|apply keeps_onMessage_B|apply keeps_onDisconnect].
Qed.

Lemma keeps_run_A events : forall w, R w (VariantA.run events w).
Proof.
  unfold VariantA.run, run. fold (@VariantA.dispatch renderer).
  induction events as [|e rest IH]; intros w; simpl.
  - apply R_refl.
  - eapply R_trans; [apply keeps_dispatch_A|apply IH].
Qed.

Lemma keeps_run_B events : forall w, R w (VariantB.run events w).
Proof.
  unfold VariantB.run, run. fold (@VariantB.dispatch renderer).
  induction events as [|e rest IH]; intros w; simpl.
  - apply R_refl.
  - eapply R_trans; [apply keeps_dispatch_B|apply IH].
Qed.

End Preservation.

(** ** The counters *)

Section Counters.
Context {renderer : Renderer}.

Lemma in_scope_winner_missing r :
  in_scope r = true -> lookup_path winnerTeam_path r = None ->
  missing winnerTeam_path r = true.
Proof.
  unfold in_scope, battle_type, bonusType_path, winnerTeam_path.
  cbn [lookup_path missing].
  destruct r as [| |b|n|s|l|fields]; try discriminate.
  destruct (fields !! "common") as [[| |b|n|s|l|common]|]; try discriminate.
  destruct (common !! "winnerTeam"); [discriminate|reflexivity].
Qed.

(** Where the guarded read of the team ends when the team is not stored:
    at [undefined], or at a falsy value that stands where the personal
    record or its avatar record should be. *)
Lemma absent_team_read r :
  lookup_path team_path r = None ->
  chain team_path r = JUndefined \/
  (r = chain team_path r /\ truthy r = false) \/
  lookup_path ["personal"] r = Some (chain team_path r) \/
  lookup_path ["personal"; "avatar"] r = Some (chain team_path r).
Proof.
  unfold team_path. cbn [lookup_path chain]. intros Hl.
  destruct (truthy r) eqn:Hr; [|right; left; split; reflexivity].
  destruct r as [| |b|n|s|l|fields]; try (left; reflexivity); try discriminate.
  rewrite field_obj.
  destruct (fields !! "personal") as [personal|]; [|left; reflexivity].
  cbn [default from_option id].
  destruct (truthy personal) eqn:Hp; [|right; right; left; reflexivity].
  destruct personal as [| |b|n|s|l|pfields]; try (left; reflexivity); try discriminate.
  rewrite field_obj.
  destruct (pfields !! "avatar") as [avatar|]; [|left; reflexivity].
  cbn [default from_option id].
  destruct (truthy avatar) eqn:Ha; [|right; right; right; reflexivity].
  destruct avatar as [| |b|n|s|l|afields]; try (left; reflexivity); try discriminate.
  rewrite field_obj.
  destruct (afields !! "team"); [discriminate|left; reflexivity].
Qed.

(** C1, amended: for every in-scope result in which personal.avatar.team
    and common.winnerTeam are both absent, [getWinnerTeam] yields
    [undefined] and [getTeam] yields a falsy value [t].  When [t] is
    [undefined] too (as it is whenever a record on the way to the team
    lacks the key) [isVictory] returns true, and processing the result
    adds exactly 1 to victoryCount and leaves lossCount as it was.  When
    [t] is another falsy value ([null], [false], 0 or the empty string,
    standing where the personal record or its avatar record should be)
    [isVictory] returns false, and processing the result adds exactly 1
    to lossCount and leaves victoryCount as it was. *)
Theorem absent_teams_follow_the_reads (battleResult : value) (w : world) :
  in_scope battleResult = true ->
  lookup_path team_path battleResult = None ->
  lookup_path winnerTeam_path battleResult = None ->
  exists t,
    getTeam battleResult = Normal t /\
    getWinnerTeam battleResult = Normal JUndefined /\
    truthy t = false /\
    (missing team_path battleResult = true -> t = JUndefined) /\
    (t = JUndefined \/
     lookup_path ["personal"] battleResult = Some t \/
     lookup_path ["personal"; "avatar"] battleResult = Some t) /\
    let w' := snd (onBattleResult battleResult w) in
    match t with
    | JUndefined =>
        isVictory battleResult = Normal true /\
        victoryCount w' = victoryCount w + 1 /\
        lossCount w' = lossCount w
    | _ =>
        isVictory battleResult = Normal false /\
        victoryCount w' = victoryCount w /\
        lossCount w' = lossCount w + 1
    end.
Proof.
  intros Hs Ht Hw.
  exists (chain team_path battleResult).
  pose proof (chain_missing _ _ (in_scope_winner_missing _ Hs Hw)) as Ew.
  split; [apply getTeam_chain|].
  split; [rewrite getWinnerTeam_chain, Ew; reflexivity|].
  split.
  { destruct (truthy (chain team_path battleResult)) eqn:E; [|reflexivity].
    rewrite (chain_truthy team_path battleResult) in Ht; [discriminate|discriminate|exact E]. }
  split; [apply chain_missing|].
  split.
  { destruct (absent_team_read _ Ht) as [E|[[E Hf]|[E|E]]]; auto.
    destruct battleResult; discriminate. }
  cbv zeta. rewrite isVictory_chain, onBattleResult_runs, Hs, Ew.
  destruct (chain team_path battleResult); repeat split.
Qed.

(** C3: an in-scope result whose personal.avatar.team and
    common.winnerTeam are both there and hold the same team adds exactly
    1 to victoryCount and leaves lossCount as it was. *)
Theorem equal_teams_count_as_victory (battleResult team : value) (w : world) :
  in_scope battleResult = true ->
  lookup_path team_path battleResult = Some team ->
  lookup_path winnerTeam_path battleResult = Some team ->
  is_primitive team = true ->
  isVictory battleResult = Normal true /\
  victoryCount (snd (onBattleResult battleResult w)) = victoryCount w + 1 /\
  lossCount (snd (onBattleResult battleResult w)) = lossCount w.
Proof.
  intros Hs Ht Hw Hp.
  rewrite isVictory_chain, onBattleResult_runs, Hs.
  rewrite (chain_lookup _ _ _ Ht), (chain_lookup _ _ _ Hw) by discriminate.
  rewrite (strict_eq_refl_primitive _ Hp).
  repeat split.
Qed.

Lemma counters_le_refl w : counters_le w w.
Proof. unfold counters_le. lia. Qed.

Lemma counters_le_trans a b c : counters_le a b -> counters_le b c -> counters_le a c.
Proof. unfold counters_le. lia. Qed.

Lemma counters_le_dispatch_A e w : counters_le w (VariantA.dispatch e w).
Proof.
  apply (keeps_dispatch_A counters_le counters_le_refl counters_le_trans);
    intros; unfold counters_le; simpl; lia.
Qed.

Lemma counters_le_dispatch_B e w : counters_le w (VariantB.dispatch e w).
Proof.
  apply (keeps_dispatch_B counters_le counters_le_refl counters_le_trans);
    intros; unfold counters_le; simpl; lia.
Qed.

Lemma counters_le_run_A events w : counters_le w (VariantA.run events w).
Proof.
  apply (keeps_run_A counters_le counters_le_refl counters_le_trans);
    intros; unfold counters_le; simpl; lia.
Qed.

Lemma counters_le_run_B events w : counters_le w (VariantB.run events w).
Proof.
  apply (keeps_run_B counters_le counters_le_refl counters_le_trans);
    intros; unfold counters_le; simpl; lia.
Qed.

(** C2: the counters start at 0; processing an in-scope result adds
    exactly 1 to exactly one of them and leaves the other alone;
    processing any other result leaves both alone; no event, in either
    variant, lowers a counter; and in every state the page can reach
    both are non-negative. *)
Theorem counters_invariant :
  (victoryCount initial = 0 /\ lossCount initial = 0) /\
  (forall battleResult w,
      let w' := snd (onBattleResult battleResult w) in
      if in_scope battleResult then
        (victoryCount w' = victoryCount w + 1 /\ lossCount w' = lossCount w) \/
        (victoryCount w' = victoryCount w /\ lossCount w' = lossCount w + 1)
      else
        victoryCount w' = victoryCount w /\ lossCount w' = lossCount w) /\
  (forall e w, counters_le w (VariantA.dispatch e w)) /\
  (forall e w, counters_le w (VariantB.dispatch e w)) /\
  (forall events,
      0 <= victoryCount (VariantA.run events VariantA.boot) /\
      0 <= lossCount (VariantA.run events VariantA.boot)) /\
  (forall events,
      0 <= victoryCount (VariantB.run events VariantB.boot) /\
      0 <= lossCount (VariantB.run events VariantB.boot)).
Proof.
  split; [split; reflexivity|].
  split.
  { intros r w. cbv zeta. rewrite onBattleResult_runs.
    destruct (in_scope r); [|split; reflexivity].
    destruct (strict_eq _ _); [left|right]; split; reflexivity. }
  split; [exact counters_le_dispatch_A|].
  split; [exact counters_le_dispatch_B|].
  split; intros events.
  - exact (counters_le_run_A events VariantA.boot).
  - exact (counters_le_run_B events VariantB.boot).
Qed.

End Counters.

(** C1 as stated fails: [teamless_battle] is in scope and names neither
    team, yet [isVictory] answers true and the victory counter, not the
    loss counter, goes up. *)
Lemma missing_teams_not_a_loss :
  in_scope teamless_battle = true /\
  lookup_path team_path teamless_battle = None /\
  lookup_path winnerTeam_path teamless_battle = None /\
  isVictory teamless_battle = Normal true /\
  victoryCount (snd (@onBattleResult plain teamless_battle initial)) = 1 /\
  lossCount (snd (@onBattleResult plain teamless_battle initial)) = 0 /\
  ~ (isVictory teamless_battle = Normal false /\
     lossCount (snd (@onBattleResult plain teamless_battle initial)) = lossCount initial + 1).
Proof.
  split; [reflexivity|]. split; [reflexivity|]. split; [reflexivity|].
  split; [reflexivity|]. split; [reflexivity|]. split; [reflexivity|].
  intros [Hv _]. vm_compute in Hv. discriminate Hv.
Qed.

Lemma absent_teams_follow_the_reads_witness :
  (in_scope teamless_battle = true /\
   lookup_path team_path teamless_battle = None /\
   lookup_path winnerTeam_path teamless_battle = None /\
   getTeam teamless_battle = Normal JUndefined /\
   isVictory teamless_battle = Normal true /\
   victoryCount (snd (@onBattleResult plain teamless_battle initial)) = victoryCount initial + 1 /\
   lossCount (snd (@onBattleResult plain teamless_battle initial)) = lossCount initial) /\
  (in_scope null_personal_battle = true /\
   lookup_path team_path null_personal_battle = None /\
   lookup_path winnerTeam_path null_personal_battle = None /\
   getTeam null_personal_battle = Normal JNull /\
   isVictory null_personal_battle = Normal false /\
   victoryCount (snd (@onBattleResult plain null_personal_battle initial)) = victoryCount initial /\
   lossCount (snd (@onBattleResult plain null_personal_battle initial)) = lossCount initial + 1).
Proof.
  split.
  - split; [reflexivity|]. split; [reflexivity|]. split; [reflexivity|].
    destruct (@absent_teams_follow_the_reads plain teamless_battle initial
                eq_refl eq_refl eq_refl) as (t & Hg & _ & _ & Hm & _ & Hc).
    rewrite (Hm eq_refl) in Hg, Hc. split; [exact Hg|exact Hc].
  - split; [reflexivity|]. split; [reflexivity|]. split; [reflexivity|].
    destruct (@absent_teams_follow_the_reads plain null_personal_battle initial
                eq_refl eq_refl eq_refl) as (t & Hg & _ & _ & _ & _ & Hc).
    assert (Et : t = JNull) by (vm_compute in Hg; congruence).
    rewrite Et in Hg, Hc. split; [exact Hg|exact Hc].
Defined.

Lemma equal_teams_count_as_victory_witness :
  in_scope won_battle = true /\
  lookup_path team_path won_battle = Some (JNum 1) /\
  lookup_path winnerTeam_path won_battle = Some (JNum 1) /\
  is_primitive (JNum 1) = true /\
  isVictory won_battle = Normal true /\
  victoryCount (snd (@onBattleResult plain won_battle initial)) = victoryCount initial + 1 /\
  lossCount (snd (@onBattleResult plain won_battle initial)) = lossCount initial.
Proof.
  split; [reflexivity|]. split; [reflexivity|]. split; [reflexivity|]. split; [reflexivity|].
  apply (@equal_teams_count_as_victory plain won_battle (JNum 1) initial); reflexivity.
Defined.

(** ** The wiring and the disconnected flag *)

Section Wiring.
Context {renderer : Renderer}.

Lemma same_wiring_refl w : same_wiring w w.
Proof. split; reflexivity. Qed.

Lemma same_wiring_trans a b c : same_wiring a b -> same_wiring b c -> same_wiring a c.
Proof. unfold same_wiring. intros [-> ->] [-> ->]. split; reflexivity. Qed.

Lemma wired_A events :
  listeners (VariantA.run events VariantA.boot) = wiring /\
  ws (VariantA.run events VariantA.boot) = Some VariantA.SERVER_ADDRESS.
Proof.
  apply (keeps_run_A same_wiring same_wiring_refl same_wiring_trans);
    intros; split; reflexivity.
Qed.

Lemma wired_B events :
  listeners (VariantB.run events VariantB.boot) = wiring /\
  ws (VariantB.run events VariantB.boot) = Some VariantB.SERVER_ADDRESS.
Proof.
  apply (keeps_run_B same_wiring same_wiring_refl same_wiring_trans);
    intros; split; reflexivity.
Qed.

Lemma dispatch_wired onOpen onMessage e w :
  listeners w = wiring ->
  dispatch onOpen onMessage e w = snd (call onOpen onMessage (handler_of e) e w).
Proof. intros Hl. unfold dispatch. rewrite Hl. destruct e; reflexivity. Qed.

Lemma stays_disconnected_refl w : stays_disconnected w w.
Proof.
  intros Hd. split; [exact Hd|]. exists []. split; [symmetry; apply app_nil_r|constructor].
Qed.

Lemma rendered_disconnected_app l1 l2 :
  rendered_disconnected l1 -> rendered_disconnected l2 -> rendered_disconnected (l1 ++ l2).
Proof.
  unfold rendered_disconnected. intros H1 H2. rewrite renders_app.
  apply Forall_app. split; assumption.
Qed.

Lemma stays_disconnected_trans a b c :
  stays_disconnected a b -> stays_disconnected b c -> stays_disconnected a c.
Proof.
  intros Hab Hbc Ha.
  destruct (Hab Ha) as (Hb & l1 & E1 & F1).
  destruct (Hbc Hb) as (Hc & l2 & E2 & F2).
  split; [exact Hc|]. exists (l1 ++ l2). split.
  - rewrite E2, E1. symmetry. apply app_assoc.
  - apply rendered_disconnected_app; assumption.
Qed.

Lemma stays_disconnected_silent w w' :
  showDisconnectedHint w' = showDisconnectedHint w -> log w' = log w ->
  stays_disconnected w w'.
Proof.
  intros Hh Hl Hd. split; [congruence|].
  exists []. split; [rewrite Hl; symmetry; apply app_nil_r|constructor].
Qed.

Lemma stays_disconnected_record e w :
  (forall v l d, e = Rendered v l d -> d = showDisconnectedHint w) ->
  stays_disconnected w (record e w).
Proof.
  intros He Hd. split; [exact Hd|].
  exists [e]. split; [reflexivity|].
  unfold rendered_disconnected. destruct e; simpl; constructor; [|constructor].
  simpl. rewrite (He _ _ _ eq_refl). exact Hd.
Qed.

Lemma stays_disconnected_run_A events w : stays_disconnected w (VariantA.run events w).
Proof.
  apply (keeps_run_A stays_disconnected stays_disconnected_refl stays_disconnected_trans);
    intros;
    first [ apply stays_disconnected_record; intros; congruence
          | apply stays_disconnected_silent; reflexivity
          | intros _; split; [reflexivity|]; exists []; split;
            [symmetry; apply app_nil_r|constructor] ].
Qed.

Lemma stays_disconnected_run_B events w : stays_disconnected w (VariantB.run events w).
Proof.
  apply (keeps_run_B stays_disconnected stays_disconnected_refl stays_disconnected_trans);
    intros;
    first [ apply stays_disconnected_record; intros; congruence
          | apply stays_disconnected_silent; reflexivity
          | intros _; split; [reflexivity|]; exists []; split;
            [symmetry; apply app_nil_r|constructor] ].
Qed.

(** What a close or error event does in a wired world. *)
Lemma disconnect_step onOpen onMessage e w :
  listeners w = wiring -> handler_of e = OnDisconnect ->
  dispatch onOpen onMessage e w = after_render (set_showDisconnectedHint true w).
Proof.
  intros Hl He. rewrite dispatch_wired by exact Hl. rewrite He. reflexivity.
Qed.

Lemma disconnect_is_final_A e :
  handler_of e = OnDisconnect ->
  disconnect_is_final VariantA.boot VariantA.dispatch VariantA.run e.
Proof.
  intros He before after. cbv zeta.
  destruct (wired_A before) as [Hl _].
  unfold VariantA.dispatch. rewrite !(disconnect_step _ _ e _ Hl He).
  set (w0 := VariantA.run before VariantA.boot).
  set (w1 := after_render (set_showDisconnectedHint true w0)).
  assert (H1 : showDisconnectedHint w1 = true) by reflexivity.
  destruct (stays_disconnected_run_A after w1 H1) as (H2 & later & El & Fl).
  split; [exact H1|]. split; [exact H2|].
  exists (Rendered (victoryCount w0) (lossCount w0) true :: later).
  split; [rewrite El; unfold w1; simpl; rewrite <- app_assoc; reflexivity|].
  split; [discriminate|].
  unfold rendered_disconnected in *. simpl. constructor; [reflexivity|exact Fl].
Qed.

Lemma disconnect_is_final_B e :
  handler_of e = OnDisconnect ->
  disconnect_is_final VariantB.boot VariantB.dispatch VariantB.run e.
Proof.
  intros He before after. cbv zeta.
  destruct (wired_B before) as [Hl _].
  unfold VariantB.dispatch. rewrite !(disconnect_step _ _ e _ Hl He).
  set (w0 := VariantB.run before VariantB.boot).
  set (w1 := after_render (set_showDisconnectedHint true w0)).
  assert (H1 : showDisconnectedHint w1 = true) by reflexivity.
  destruct (stays_disconnected_run_B after w1 H1) as (H2 & later & El & Fl).
  split; [exact H1|]. split; [exact H2|].
  exists (Rendered (victoryCount w0) (lossCount w0) true :: later).
  split; [rewrite El; unfold w1; simpl; rewrite <- app_assoc; reflexivity|].
  split; [discriminate|].
  unfold rendered_disconnected in *. simpl. constructor; [reflexivity|exact Fl].
Qed.

(** C4: the disconnected flag starts false; a close event and an error
    event each set it; no later event clears it; and every call of
    [render] from then on is made with the flag set.  In both variants. *)
Theorem disconnected_is_permanent :
  showDisconnectedHint initial = false /\
  showDisconnectedHint VariantA.boot = false /\
  showDisconnectedHint VariantB.boot = false /\
  disconnect_is_final VariantA.boot VariantA.dispatch VariantA.run Close /\
  disconnect_is_final VariantA.boot VariantA.dispatch VariantA.run Error /\
  disconnect_is_final VariantB.boot VariantB.dispatch VariantB.run Close /\
  disconnect_is_final VariantB.boot VariantB.dispatch VariantB.run Error.
Proof.
  split; [reflexivity|]. split; [reflexivity|]. split; [reflexivity|].
  split; [apply disconnect_is_final_A; reflexivity|].
  split; [apply disconnect_is_final_A; reflexivity|].
  split; apply disconnect_is_final_B; reflexivity.
Qed.

End Wiring.

(** ** The win rate, the handshake and the start of the page *)

Section Page.
Context {renderer : Renderer}.

Lemma js_div_win_rate v l : 0 <= v -> 0 <= l -> js_div v (l + v) = win_rate v l.
Proof.
  intros Hv Hl. unfold js_div, win_rate.
  destruct (Z.eqb_spec (l + v) 0) as [E|E].
  - assert (v = 0) by lia. assert (l = 0) by lia. subst. reflexivity.
  - destruct (Z.eqb_spec v 0) as [Ev|Ev]; destruct (Z.eqb_spec l 0) as [El|El];
      simpl; try lia; rewrite (Z.add_comm l v); reflexivity.
Qed.

(** C7: [render] shows the win rate victoryCount / (victoryCount +
    lossCount); with both counters at zero that value is NaN; and
    [render] returns normally, in that state as in any other, having
    handed the value to the three presentation functions. *)
Theorem render_shows_win_rate (w : world) :
  0 <= victoryCount w -> 0 <= lossCount w ->
  let rate := win_rate (victoryCount w) (lossCount w) in
  fst (render w) = Normal tt /\
  document (snd (render w)) =
    Some {| title := renderTitle rate;
            innerHTML := renderContent rate (showDisconnectedHint w);
            favicon_href := renderFavicon rate |} /\
  (victoryCount w = 0 -> lossCount w = 0 -> rate = NaN) /\
  (victoryCount w + lossCount w <> 0 ->
   rate = Finite (inject_Z (victoryCount w) / inject_Z (victoryCount w + lossCount w))%Q).
Proof.
  intros Hv Hl rate. rewrite render_runs. simpl.
  split; [reflexivity|]. split.
  - unfold page_of. rewrite (js_div_win_rate _ _ Hv Hl). reflexivity.
  - unfold rate, win_rate. split.
    + intros -> ->. reflexivity.
    + intros Hne.
      destruct (Z.eqb_spec (victoryCount w) 0) as [Ev|Ev];
        destruct (Z.eqb_spec (lossCount w) 0) as [El|El]; simpl; try reflexivity; lia.
Qed.

Lemma nothing_sent_refl w : nothing_sent w w.
Proof. reflexivity. Qed.

Lemma nothing_sent_trans a b c : nothing_sent a b -> nothing_sent b c -> nothing_sent a c.
Proof. unfold nothing_sent. congruence. Qed.

Lemma nothing_sent_record e w :
  (forall frame, e <> Sent frame) -> nothing_sent w (record e w).
Proof.
  intros He. unfold nothing_sent. simpl. rewrite sent_frames_app.
  destruct e; simpl; try apply app_nil_r. destruct (He frame eq_refl).
Qed.

Lemma ws_send_runs frame w address :
  ws w = Some address -> ws_send frame w = (Normal tt, record (Sent frame) w).
Proof. intros Hs. unfold ws_send, bind, gets. rewrite Hs. reflexivity. Qed.

Ltac nothing_sent_side :=
  first [ exact nothing_sent_refl | exact nothing_sent_trans
        | intros; first [apply nothing_sent_record; intros; discriminate | reflexivity] ].

Lemma nothing_sent_onDisconnect : keeps nothing_sent onDisconnect.
Proof.
  apply (keeps_onDisconnect nothing_sent); nothing_sent_side.
Qed.

Lemma nothing_sent_onMessage_A data : keeps nothing_sent (VariantA.onMessage data).
Proof.
  apply (keeps_onMessage_A nothing_sent); nothing_sent_side.
Qed.

Lemma nothing_sent_onMessage_B data : keeps nothing_sent (VariantB.onMessage data).
Proof.
  apply (keeps_onMessage_B nothing_sent); nothing_sent_side.
Qed.

(** C8: on the open event variant A sends one frame, the array of the
    two JSON-RPC requests, and variant B sends two frames, REPLAY then
    SUBSCRIBE; the INIT block sends nothing and no other event sends
    anything. *)
Theorem handshake_is_the_only_traffic :
  (sent_frames (log VariantA.boot) = [] /\
   forall events e,
     let w := VariantA.run events VariantA.boot in
     sent_frames (log (VariantA.dispatch e w)) =
     sent_frames (log w) ++
       match e with
       | Open => [Json (JArr [get_battle_results_request; subscribe_request])]
       | _ => []
       end) /\
  (sent_frames (log VariantB.boot) = [] /\
   forall events e,
     let w := VariantB.run events VariantB.boot in
     sent_frames (log (VariantB.dispatch e w)) =
     sent_frames (log w) ++
       match e with
       | Open => [Json replay_command; Json subscribe_command]
       | _ => []
       end).
Proof.
  split; (split; [reflexivity|]); intros events e; cbv zeta.
  - destruct (wired_A events) as [Hl Hs].
    unfold VariantA.dispatch. rewrite (dispatch_wired _ _ e _ Hl).
    set (w := VariantA.run events VariantA.boot) in *.
    destruct e; cbn [handler_of call event_data]; rewrite ?app_nil_r.
    + unfold VariantA.onOpen. rewrite (ws_send_runs _ _ _ Hs). simpl.
      rewrite sent_frames_app. reflexivity.
    + apply nothing_sent_onMessage_A.
    + apply nothing_sent_onDisconnect.
    + apply nothing_sent_onDisconnect.
  - destruct (wired_B events) as [Hl Hs].
    unfold VariantB.dispatch. rewrite (dispatch_wired _ _ e _ Hl).
    set (w := VariantB.run events VariantB.boot) in *.
    destruct e; cbn [handler_of call event_data]; rewrite ?app_nil_r.
    + unfold VariantB.onOpen, bind.
      rewrite (ws_send_runs _ _ _ Hs). rewrite (ws_send_runs _ _ VariantB.SERVER_ADDRESS) by exact Hs.
      simpl. rewrite !sent_frames_app, <- app_assoc. reflexivity.
    + apply nothing_sent_onMessage_B.
    + apply nothing_sent_onDisconnect.
    + apply nothing_sent_onDisconnect.
Qed.

(** C9: the INIT block calls [render] once, before it constructs the
    socket, with both counters at 0 and the flag false, so the page
    shows the 0/0 (NaN) win rate; until the block has run no listener is
    registered, so no socket event reaches a handler.  In both variants. *)
Theorem page_starts_with_one_render :
  VariantA.init initial = (Normal tt, booted VariantA.SERVER_ADDRESS) /\
  VariantB.init initial = (Normal tt, booted VariantB.SERVER_ADDRESS) /\
  (forall address, renders (log (booted address)) = [(0, 0, false)]) /\
  js_div 0 (0 + 0) = NaN /\
  (forall e, VariantA.dispatch e initial = initial) /\
  (forall e, VariantB.dispatch e initial = initial).
Proof.
  split; [reflexivity|]. split; [reflexivity|]. split; [reflexivity|].
  split; [reflexivity|]. split; intros e; reflexivity.
Qed.

End Page.

Lemma render_shows_win_rate_witness :
  (0 <= victoryCount initial /\ 0 <= lossCount initial /\
   fst (@render plain initial) = Normal tt /\
   document (snd (@render plain initial)) =
     Some {| title := "no games"; innerHTML := "connected"; favicon_href := "favicon" |} /\
   win_rate (victoryCount initial) (lossCount initial) = NaN) /\
  (let w := snd (@onBattleResult plain won_battle initial) in
   0 <= victoryCount w /\ 0 <= lossCount w /\ victoryCount w + lossCount w <> 0 /\
   fst (@render plain w) = Normal tt /\
   win_rate (victoryCount w) (lossCount w) = Finite (inject_Z 1 / inject_Z (1 + 0))%Q).
Proof.
  split.
  - split; [apply Z.le_refl|]. split; [apply Z.le_refl|].
    destruct (@render_shows_win_rate plain initial (Z.le_refl 0) (Z.le_refl 0))
      as (Hr & Hd & Hnan & _).
    split; [exact Hr|]. split; [exact Hd|]. exact (Hnan eq_refl eq_refl).
  - cbv zeta.
    assert (Hne : victoryCount (snd (@onBattleResult plain won_battle initial))
                  + lossCount (snd (@onBattleResult plain won_battle initial)) <> 0)
      by (vm_compute; discriminate).
    split; [exact Z.le_0_1|]. split; [exact (Z.le_refl 0)|]. split; [exact Hne|].
    destruct (@render_shows_win_rate plain (snd (@onBattleResult plain won_battle initial))
                Z.le_0_1 (Z.le_refl 0))
      as (Hr & _ & _ & Hq).
    split; [exact Hr|exact (Hq Hne)].
Defined.

(** ** The decoders, as the specification describes them *)

Section Decoders.
Context {renderer : Renderer}.

(** The four branches of [onJsonRpcMessage] on a record. *)
Lemma onJsonRpcMessage_obj fields w :
  VariantA.onJsonRpcMessage (JObj fields) w =
  let get k := default JUndefined (fields !! k) in
  if strict_eq (get "method") (JStr "subscription") then
    match prop (get "params") "battleResult" with
    | Normal r => onBattleResult r w
    | Throw e => (Throw e, w)
    end
  else if truthy (get "result") && strict_eq (get "id") (JNum 1) then
    for_of (prop (get "result") "battleResults") onBattleResult w
  else if truthy (get "error") then
    (Normal tt, record (ConsoleError "Error:" (get "error")) w)
  else (Normal tt, w).
Proof.
  cbv zeta. unfold VariantA.onJsonRpcMessage, bind, eval, js_seq, js_and, member, lit.
  cbn [cbind prop truthy].
  destruct (strict_eq (default JUndefined (fields !! "method")) (JStr "subscription")).
  - destruct (prop (default JUndefined (fields !! "params")) "battleResult"); reflexivity.
  - destruct (truthy (default JUndefined (fields !! "result"))) eqn:Hr; cbn [cbind andb truthy].
    + destruct (strict_eq (default JUndefined (fields !! "id")) (JNum 1)); cbn [cbind andb truthy].
      * reflexivity.
      * destruct (truthy (default JUndefined (fields !! "error"))); reflexivity.
    + rewrite Hr.
      destruct (truthy (default JUndefined (fields !! "error"))); reflexivity.
Qed.

Lemma key_is_string_obj k s fields :
  key_is_string k s (JObj fields) = strict_eq (default JUndefined (fields !! k)) (JStr s).
Proof.
  unfold key_is_string. simpl.
  destruct (fields !! k) as [[]|]; reflexivity.
Qed.

Lemma key_is_number_obj k n fields :
  key_is_number k n (JObj fields) = strict_eq (default JUndefined (fields !! k)) (JNum n).
Proof.
  unfold key_is_number. simpl.
  destruct (fields !! k) as [[]|]; reflexivity.
Qed.

Lemma reply_guard fields :
  has_key "result" (JObj fields) && key_is_number "id" 1 (JObj fields) = false ->
  truthy (default JUndefined (fields !! "result"))
    && strict_eq (default JUndefined (fields !! "id")) (JNum 1) = false.
Proof.
  rewrite key_is_number_obj. unfold has_key. simpl.
  destruct (fields !! "result"); simpl.
  - intros ->. apply andb_false_r.
  - reflexivity.
Qed.

Lemma onMessage_A_single m w :
  isArray m = false -> VariantA.onMessage (Json m) w = VariantA.onJsonRpcMessage m w.
Proof.
  intros Ha. unfold VariantA.onMessage, bind, eval. simpl. rewrite Ha. reflexivity.
Qed.

(** The branches of [onMessage] of variant B on a record. *)
Lemma onMessage_B_obj fields w :
  VariantB.onMessage (Json (JObj fields)) w =
  let get k := default JUndefined (fields !! k) in
  if strict_eq (get "messageType") (JStr "BATTLE_RESULT") then
    match prop (get "payload") "result" with
    | Normal r => onBattleResult r w
    | Throw e => (Throw e, w)
    end
  else if strict_eq (get "messageType") (JStr "ERROR") then
    (Normal tt, record (ConsoleError "Protocol Error:" (get "payload")) w)
  else (Normal tt, w).
Proof.
  cbv zeta. unfold VariantB.onMessage, bind, eval, js_seq, member, lit.
  cbn [cbind prop truthy JSON_parse].
  destruct (strict_eq (default JUndefined (fields !! "messageType")) (JStr "BATTLE_RESULT")).
  - destruct (prop (default JUndefined (fields !! "payload")) "result"); reflexivity.
  - destruct (strict_eq (default JUndefined (fields !! "messageType")) (JStr "ERROR"));
      reflexivity.
Qed.

Lemma error_message_A m e w :
  decode_object m = [LogError e] ->
  VariantA.onMessage (Json m) w =
  (Normal tt, if truthy e then record (ConsoleError "Error:" e) w else w).
Proof.
  intros Hd. destruct m as [| |b|n|s|l|fields]; try (cbv in Hd; discriminate).
  rewrite onMessage_A_single by reflexivity.
  rewrite onJsonRpcMessage_obj. cbv beta zeta.
  unfold decode_object in Hd. rewrite key_is_string_obj in Hd.
  destruct (strict_eq (default JUndefined (fields !! "method")) (JStr "subscription")).
  { destruct (lookup_path _ _); discriminate. }
  destruct (has_key "result" (JObj fields) && key_is_number "id" 1 (JObj fields)) eqn:Hg.
  { destruct (lookup_path _ _) as [[| | | | |results|]|]; try discriminate.
    destruct results as [|r [|r' rest]]; discriminate. }
  rewrite (reply_guard _ Hg).
  simpl in Hd. destruct (fields !! "error") as [e'|]; [|discriminate].
  injection Hd as ->. simpl. destruct (truthy e); reflexivity.
Qed.

Lemma error_message_B m e w :
  decode_envelope m = [LogError e] ->
  VariantB.onMessage (Json m) w = (Normal tt, record (ConsoleError "Protocol Error:" e) w).
Proof.
  intros Hd. destruct m as [| |b|n|s|l|fields]; try (cbv in Hd; discriminate).
  rewrite onMessage_B_obj. cbv beta zeta.
  unfold decode_envelope in Hd. rewrite !key_is_string_obj in Hd.
  destruct (strict_eq (default JUndefined (fields !! "messageType")) (JStr "BATTLE_RESULT")).
  { destruct (lookup_path _ _); discriminate. }
  destruct (strict_eq (default JUndefined (fields !! "messageType")) (JStr "ERROR"));
    [|discriminate].
  injection Hd as <-. reflexivity.
Qed.

Lemma only_logs_record label e w : only_logs label [e] w (record (ConsoleError label e) w).
Proof. repeat split. Qed.

Lemma only_logs_nothing label w : only_logs label [] w w.
Proof. repeat split. simpl. symmetry. apply app_nil_r. Qed.

(** C5: a message the decoder classes as a server-reported error (in
    variant A an object whose class is "error", in variant B a frame
    tagged ERROR) is handled without an exception and changes neither
    counter nor the disconnected flag, nor the page, the socket or the
    listeners; all it adds is the console line. *)
Theorem server_errors_are_only_logged (m e : value) (w : world) :
  (decode_object m = [LogError e] ->
   fst (VariantA.onMessage (Json m) w) = Normal tt /\
   only_logs "Error:" (if truthy e then [e] else []) w
     (snd (VariantA.onMessage (Json m) w))) /\
  (decode_envelope m = [LogError e] ->
   fst (VariantB.onMessage (Json m) w) = Normal tt /\
   only_logs "Protocol Error:" [e] w (snd (VariantB.onMessage (Json m) w))).
Proof.
  split; intros Hd.
  - rewrite (error_message_A _ _ _ Hd). split; [reflexivity|]. simpl.
    destruct (truthy e); [apply only_logs_record|apply only_logs_nothing].
  - rewrite (error_message_B _ _ _ Hd). split; [reflexivity|]. apply only_logs_record.
Qed.

(** *** The decoder of variant A against the specification *)

Lemma bind_ret_unit (m : M unit) w : bind m (fun _ => ret tt) w = m w.
Proof. unfold bind, ret. destruct (m w) as [[[]|e] w']; reflexivity. Qed.

Lemma perform_all_app label l1 l2 w :
  perform_all label (l1 ++ l2) w =
  bind (perform_all label l1) (fun _ => perform_all label l2) w.
Proof.
  revert w. induction l1 as [|a rest IH]; intros w; [reflexivity|].
  cbn [app perform_all]. unfold bind at 1 2 3.
  destruct (perform label a w) as [[[]|e] w']; [|reflexivity].
  rewrite IH. reflexivity.
Qed.

Lemma perform_all_results label results w :
  perform_all label (map Process results) w = forEach results onBattleResult w.
Proof.
  revert w. induction results as [|r rest IH]; intros w; [reflexivity|].
  cbn [map perform_all forEach perform]. unfold bind.
  destruct (onBattleResult r w) as [[[]|e] w']; [apply IH|reflexivity].
Qed.

Lemma decode_object_refined m w :
  wf_message m = true ->
  VariantA.onJsonRpcMessage m w = perform_all "Error:" (decode_object m) w.
Proof.
  intros Hwf. destruct m as [| |b|n|s|l|fields]; try discriminate.
  rewrite onJsonRpcMessage_obj. cbv beta zeta.
  unfold wf_message in Hwf. unfold decode_object.
  rewrite key_is_string_obj in *.
  destruct (strict_eq (default JUndefined (fields !! "method")) (JStr "subscription")).
  { destruct (fields !! "params") as [[| | | | | |params]|] eqn:Hp; try discriminate.
    cbn [lookup_path]. rewrite Hp. cbn [default from_option id prop].
    destruct (params !! "battleResult") as [r|]; cbn [default from_option id perform_all perform].
    - symmetry. apply bind_ret_unit.
    - apply onBattleResult_skip. reflexivity. }
  destruct (has_key "result" (JObj fields) && key_is_number "id" 1 (JObj fields)) eqn:Hg.
  { apply andb_prop in Hg as [_ Hid]. rewrite key_is_number_obj in Hid.
    cbn [lookup_path] in *.
    destruct (fields !! "result") as [[| | | | | |result]|] eqn:Hr; try discriminate.
    destruct (result !! "battleResults") as [[| | | | |results|]|] eqn:Hb; try discriminate.
    cbn [default from_option id truthy andb]. rewrite Hid.
    rewrite perform_all_results.
    unfold for_of, bind, eval. cbn [prop]. rewrite Hb. reflexivity. }
  rewrite (reply_guard _ Hg). cbn [lookup_path].
  destruct (fields !! "error") as [e|]; cbn [default from_option id truthy].
  - rewrite Hwf. reflexivity.
  - reflexivity.
Qed.

Lemma batch_refined messages : forall w,
  forallb wf_message messages = true ->
  forEach messages VariantA.onJsonRpcMessage w =
  perform_all "Error:" (flat_map decode_object messages) w.
Proof.
  induction messages as [|m rest IH]; intros w Hwf; [reflexivity|].
  cbn [forallb] in Hwf. apply andb_prop in Hwf as [Hm Hrest].
  cbn [forEach flat_map]. rewrite perform_all_app. unfold bind.
  rewrite (decode_object_refined _ _ Hm).
  destruct (perform_all "Error:" (decode_object m) w) as [[[]|e] w']; [|reflexivity].
  apply IH. exact Hrest.
Qed.

(** C6: on a frame of the expected shape the decoder of variant A does
    what the specification's decoding says, action by action and in
    arrival order: every element of a batch is decoded, a notification
    yields params.battleResult, the reply to request 1 yields each
    element of result.battleResults, an error is logged, anything else
    is passed over; and one object alone is handled as the batch that
    holds just that object. *)
Theorem decoder_follows_the_specification (parsed : value) :
  wf_frame parsed = true ->
  (forall w,
     VariantA.onMessage (Json parsed) w =
     perform_all "Error:" (decode_frame parsed) w) /\
  (isArray parsed = false ->
   decode_frame (JArr [parsed]) = decode_frame parsed /\
   forall w,
     VariantA.onMessage (Json (JArr [parsed])) w = VariantA.onMessage (Json parsed) w).
Proof.
  intros Hwf. split.
  - intros w. destruct parsed as [| |b|n|s|messages|fields]; try discriminate.
    + unfold VariantA.onMessage, bind, eval, for_of. cbn [JSON_parse isArray lit iterate].
      apply batch_refined. exact Hwf.
    + rewrite onMessage_A_single by reflexivity.
      apply decode_object_refined. exact Hwf.
  - intros Ha. split.
    + destruct parsed; try discriminate; cbn [decode_frame flat_map]; apply app_nil_r.
    + intros w. rewrite (onMessage_A_single parsed) by exact Ha.
      unfold VariantA.onMessage, bind, eval, for_of.
      cbn [JSON_parse isArray lit iterate forEach].
      apply (bind_ret_unit (VariantA.onJsonRpcMessage parsed)).
Qed.

(** *** The order of the branches *)

Lemma nothing_logged_refl w : nothing_logged w w.
Proof. reflexivity. Qed.

Lemma nothing_logged_trans a b c : nothing_logged a b -> nothing_logged b c -> nothing_logged a c.
Proof. unfold nothing_logged. congruence. Qed.

Lemma nothing_logged_onBattleResult r : keeps nothing_logged (onBattleResult r).
Proof.
  apply (keeps_onBattleResult nothing_logged);
    first [ exact nothing_logged_refl | exact nothing_logged_trans | intros ];
    unfold nothing_logged; simpl; rewrite ?console_app; simpl; rewrite ?app_nil_r; reflexivity.
Qed.

(** C10: the branches of [onJsonRpcMessage] are tried in the order
    notification, reply to request 1, error.  A message that carries an
    [error] field but is a notification is processed as a notification,
    and one that is the reply to request 1 is processed as that reply;
    in neither case is anything written to the console. *)
Theorem earlier_branch_wins (fields : gmap string value) (e : value) (w : world) :
  fields !! "error" = Some e ->
  (forall params,
     fields !! "method" = Some (JStr "subscription") ->
     fields !! "params" = Some (JObj params) ->
     VariantA.onJsonRpcMessage (JObj fields) w =
       onBattleResult (default JUndefined (params !! "battleResult")) w /\
     nothing_logged w (snd (VariantA.onJsonRpcMessage (JObj fields) w))) /\
  (forall result results,
     key_is_string "method" "subscription" (JObj fields) = false ->
     fields !! "result" = Some (JObj result) ->
     fields !! "id" = Some (JNum 1) ->
     result !! "battleResults" = Some (JArr results) ->
     VariantA.onJsonRpcMessage (JObj fields) w = forEach results onBattleResult w /\
     nothing_logged w (snd (VariantA.onJsonRpcMessage (JObj fields) w))).
Proof.
  intros He. split.
  - intros params Hm Hp.
    assert (E : VariantA.onJsonRpcMessage (JObj fields) w =
                onBattleResult (default JUndefined (params !! "battleResult")) w).
    { rewrite onJsonRpcMessage_obj. cbv beta zeta. rewrite Hm, Hp. reflexivity. }
    split; [exact E|]. rewrite E. apply nothing_logged_onBattleResult.
  - intros result results Hm Hr Hi Hb.
    assert (E : VariantA.onJsonRpcMessage (JObj fields) w = forEach results onBattleResult w).
    { rewrite onJsonRpcMessage_obj. cbv beta zeta.
      rewrite key_is_string_obj in Hm. rewrite Hm, Hr, Hi.
      cbn [default from_option id truthy andb strict_eq Z.eqb Pos.eqb].
      unfold for_of, bind, eval. cbn [prop]. rewrite Hb. reflexivity. }
    split; [exact E|]. rewrite E.
    apply (keeps_forEach nothing_logged nothing_logged_refl nothing_logged_trans).
    apply nothing_logged_onBattleResult.
Qed.

End Decoders.

(** ** The properties on concrete messages *)

Lemma server_errors_are_only_logged_witness :
  (decode_object error_reply = [LogError rpc_error] /\
   decode_envelope error_envelope = [LogError (JStr "unknown command")]) /\
  only_logs "Error:" [rpc_error] initial
    (snd (@VariantA.onMessage plain (Json error_reply) initial)) /\
  only_logs "Protocol Error:" [JStr "unknown command"] initial
    (snd (@VariantB.onMessage plain (Json error_envelope) initial)).
Proof.
  split; [split; reflexivity|]. split.
  - exact (proj2 (proj1 (@server_errors_are_only_logged plain error_reply rpc_error initial)
                        eq_refl)).
  - exact (proj2 (proj2 (@server_errors_are_only_logged plain error_envelope
                           (JStr "unknown command") initial)
                        eq_refl)).
Defined.

Lemma decoder_follows_the_specification_witness :
  (wf_frame sample_batch = true /\
   forall w,
     @VariantA.onMessage plain (Json sample_batch) w =
     @perform_all plain "Error:"
       [Process won_battle; Process lost_battle; Process won_battle; LogError rpc_error] w) /\
  (wf_frame (notification lost_battle) = true /\
   isArray (notification lost_battle) = false /\
   forall w,
     @VariantA.onMessage plain (Json (JArr [notification lost_battle])) w =
     @VariantA.onMessage plain (Json (notification lost_battle)) w).
Proof.
  split.
  - split; [reflexivity|].
    exact (proj1 (@decoder_follows_the_specification plain sample_batch eq_refl)).
  - split; [reflexivity|]. split; [reflexivity|].
    exact (proj2 (proj2 (@decoder_follows_the_specification plain (notification lost_battle)
                           eq_refl)
                        eq_refl)).
Defined.

Lemma earlier_branch_wins_witness :
  notification_with_error !! "error" = Some rpc_error /\
  reply_with_error !! "error" = Some rpc_error /\
  console (log (snd (@VariantA.onJsonRpcMessage plain (JObj notification_with_error) initial))) = [] /\
  console (log (snd (@VariantA.onJsonRpcMessage plain (JObj reply_with_error) initial))) = [].
Proof.
  split; [reflexivity|]. split; [reflexivity|]. split.
  - exact (proj2 (proj1 (@earlier_branch_wins plain notification_with_error rpc_error initial
                           eq_refl)
                        (list_to_map [("battleResult", won_battle)]) eq_refl eq_refl)).
  - exact (proj2 (proj2 (@earlier_branch_wins plain reply_with_error rpc_error initial eq_refl)
                        (list_to_map [("battleResults", JArr [lost_battle])]) [lost_battle]
                        eq_refl eq_refl eq_refl eq_refl)).
Defined.

(** The scenarios of the specification. *)

Example variant_A_victory :
  let w := @VariantA.run plain [Open; Message (Json (notification won_battle))]
             (@VariantA.boot plain) in
  victoryCount w = 1 /\ lossCount w = 0.
Proof. vm_compute. split; reflexivity. Qed.

Example variant_B_loss :
  let w := @VariantB.run plain [Open; Message (Json (result_envelope lost_battle))]
             (@VariantB.boot plain) in
  victoryCount w = 0 /\ lossCount w = 1.
Proof. vm_compute. split; reflexivity. Qed.

Example out_of_scope_battle :
  let w := @VariantA.run plain [Open; Message (Json (notification skirmish))]
             (@VariantA.boot plain) in
  victoryCount w = 0 /\ lossCount w = 0 /\ renders (log w) = [(0, 0, false)].
Proof. vm_compute. repeat split; reflexivity. Qed.

Example batch_then_disconnect :
  let w := @VariantA.run plain [Open; Message (Json sample_batch); Close; Message Malformed]
             (@VariantA.boot plain) in
  victoryCount w = 2 /\ lossCount w = 1 /\ showDisconnectedHint w = true /\
  renders (log w) =
    [(0, 0, false); (1, 0, false); (1, 1, false); (2, 1, false); (2, 1, true)] /\
  console (log w) = [("Error:"%string, rpc_error)].
Proof. vm_compute. repeat split; reflexivity. Qed.

(** ** Further properties of the battle result parsing *)

Lemma chain_stored_or_falsy path v :
  path <> [] ->
  match lookup_path path v with
  | Some t => chain path v = t
  | None => truthy (chain path v) = false
  end.
Proof.
  intros Hne. destruct (lookup_path path v) as [t|] eqn:Hl.
  - apply chain_lookup; assumption.
  - destruct (truthy (chain path v)) eqn:Ht; [|reflexivity].
    rewrite (chain_truthy path v Hne Ht) in Hl. discriminate.
Qed.

(** X1: [isRandomBattle] never throws, whatever it is given, and answers
    true exactly when common.bonusType is stored and is the number 1 or
    the number 24. *)
Theorem isRandomBattle_exact (battleResult : value) :
  isRandomBattle battleResult =
  Normal match lookup_path bonusType_path battleResult with
         | Some (JNum n) => (n =? 1) || (n =? 24)
         | _ => false
         end.
Proof.
  rewrite isRandomBattle_in_scope. f_equal. unfold in_scope, battle_type.
  destruct (lookup_path bonusType_path battleResult) as [[| |b|n|s|l|m]|]; try reflexivity.
  destruct n as [|p|p]; try reflexivity.
  repeat (destruct p as [p|p|]; try reflexivity).
Qed.

(** X2: the three guarded reads never throw.  Each returns the field
    when it is stored under records all the way, and a falsy value when
    it is not. *)
Theorem guarded_reads_never_throw (battleResult : value) :
  match lookup_path bonusType_path battleResult with
  | Some t => getBattleType battleResult = Normal t
  | None => exists v, getBattleType battleResult = Normal v /\ truthy v = false
  end /\
  match lookup_path winnerTeam_path battleResult with
  | Some t => getWinnerTeam battleResult = Normal t
  | None => exists v, getWinnerTeam battleResult = Normal v /\ truthy v = false
  end /\
  match lookup_path team_path battleResult with
  | Some t => getTeam battleResult = Normal t
  | None => exists v, getTeam battleResult = Normal v /\ truthy v = false
  end.
Proof.
  rewrite getBattleType_chain, getWinnerTeam_chain, getTeam_chain.
  split; [|split].
  - pose proof (chain_stored_or_falsy bonusType_path battleResult) as Hc.
    destruct (lookup_path bonusType_path battleResult);
      [rewrite Hc by discriminate; reflexivity|eexists; split; [reflexivity|apply Hc; discriminate]].
  - pose proof (chain_stored_or_falsy winnerTeam_path battleResult) as Hc.
    destruct (lookup_path winnerTeam_path battleResult);
      [rewrite Hc by discriminate; reflexivity|eexists; split; [reflexivity|apply Hc; discriminate]].
  - pose proof (chain_stored_or_falsy team_path battleResult) as Hc.
    destruct (lookup_path team_path battleResult);
      [rewrite Hc by discriminate; reflexivity|eexists; split; [reflexivity|apply Hc; discriminate]].
Qed.

Section FurtherCounters.
Context {renderer : Renderer}.

(** X3: for an in-scope result whose two team fields hold numbers, the
    result is a victory exactly when the numbers are equal: victoryCount
    goes up by 1 when they are, lossCount when they are not, and the
    other counter stays. *)
Theorem numeric_teams_decide (battleResult : value) (team winner : Z) (w : world) :
  in_scope battleResult = true ->
  lookup_path team_path battleResult = Some (JNum team) ->
  lookup_path winnerTeam_path battleResult = Some (JNum winner) ->
  isVictory battleResult = Normal (team =? winner) /\
  victoryCount (snd (onBattleResult battleResult w)) =
    victoryCount w + (if team =? winner then 1 else 0) /\
  lossCount (snd (onBattleResult battleResult w)) =
    lossCount w + (if team =? winner then 0 else 1).
Proof.
  intros Hs Ht Hw.
  rewrite isVictory_chain, onBattleResult_runs, Hs.
  rewrite (chain_lookup _ _ _ Ht), (chain_lookup _ _ _ Hw) by discriminate.
  cbn [strict_eq]. destruct (team =? winner); simpl; repeat split; lia.
Qed.

Lemma strict_eq_undefined_l x : x <> JUndefined -> strict_eq JUndefined x = false.
Proof. destruct x; try reflexivity. congruence. Qed.

Lemma strict_eq_undefined_r x : x <> JUndefined -> strict_eq x JUndefined = false.
Proof. destruct x; try reflexivity. congruence. Qed.

(** X4: an in-scope result in which one of the two team fields is
    missing (a record on the way to it lacks the key) and the other is
    stored (with whatever JSON value) is not a victory: lossCount goes up
    by 1 and victoryCount stays. *)
Theorem one_missing_team_is_a_loss (battleResult stored : value) (w : world) :
  in_scope battleResult = true ->
  stored <> JUndefined ->
  (missing team_path battleResult = true /\
   lookup_path winnerTeam_path battleResult = Some stored) \/
  (lookup_path team_path battleResult = Some stored /\
   missing winnerTeam_path battleResult = true) ->
  isVictory battleResult = Normal false /\
  victoryCount (snd (onBattleResult battleResult w)) = victoryCount w /\
  lossCount (snd (onBattleResult battleResult w)) = lossCount w + 1.
Proof.
  intros Hs Hx Hcase.
  rewrite isVictory_chain, onBattleResult_runs, Hs.
  assert (E : strict_eq (chain team_path battleResult) (chain winnerTeam_path battleResult)
              = false).
  { destruct Hcase as [[Hm Hl]|[Hl Hm]].
    - rewrite (chain_missing _ _ Hm), (chain_lookup _ _ _ Hl) by discriminate.
      apply strict_eq_undefined_l, Hx.
    - rewrite (chain_missing _ _ Hm), (chain_lookup _ _ _ Hl) by discriminate.
      apply strict_eq_undefined_r, Hx. }
  rewrite E. repeat split.
Qed.

Lemma onBattleResult_returns r w : fst (onBattleResult r w) = Normal tt.
Proof.
  rewrite onBattleResult_runs.
  destruct (in_scope r); [destruct (strict_eq _ _)|]; reflexivity.
Qed.

(** X5: [onBattleResult] never throws.  A result that is not in scope
    leaves everything as it was: counters, flag, page and log.  An
    in-scope result raises the number of counted games by 1, calls
    [render] exactly once, with the new counters, and leaves the page
    showing the new state; the flag is not touched. *)
Theorem onBattleResult_effect (battleResult : value) (w : world) :
  fst (onBattleResult battleResult w) = Normal tt /\
  let w' := snd (onBattleResult battleResult w) in
  if in_scope battleResult then
    victoryCount w' + lossCount w' = victoryCount w + lossCount w + 1 /\
    log w' = log w ++ [Rendered (victoryCount w') (lossCount w') (showDisconnectedHint w)] /\
    document w' = Some (page_of w') /\
    showDisconnectedHint w' = showDisconnectedHint w
  else w' = w.
Proof.
  split; [apply onBattleResult_returns|].
  cbv zeta. rewrite onBattleResult_runs.
  destruct (in_scope battleResult); [|reflexivity].
  destruct (strict_eq _ _); simpl; (split; [lia|repeat split]).
Qed.

End FurtherCounters.

Lemma numeric_teams_decide_witness :
  in_scope lost_battle = true /\
  lookup_path team_path lost_battle = Some (JNum 1) /\
  lookup_path winnerTeam_path lost_battle = Some (JNum 2) /\
  isVictory lost_battle = Normal false /\
  victoryCount (snd (@onBattleResult plain lost_battle initial)) = 0 /\
  lossCount (snd (@onBattleResult plain lost_battle initial)) = 1.
Proof.
  split; [reflexivity|]. split; [reflexivity|]. split; [reflexivity|].
  exact (@numeric_teams_decide plain lost_battle 1 2 initial eq_refl eq_refl eq_refl).
Defined.

Lemma one_missing_team_is_a_loss_witness :
  let r := battle 1 [("winnerTeam", JNum 2)] [] in
  in_scope r = true /\
  JNum 2 <> JUndefined /\
  missing team_path r = true /\
  lookup_path winnerTeam_path r = Some (JNum 2) /\
  isVictory r = Normal false /\
  victoryCount (snd (@onBattleResult plain r initial)) = victoryCount initial /\
  lossCount (snd (@onBattleResult plain r initial)) = lossCount initial + 1.
Proof.
  cbv zeta.
  assert (Hne : JNum 2 <> JUndefined) by discriminate.
  split; [reflexivity|]. split; [exact Hne|]. split; [reflexivity|]. split; [reflexivity|].
  exact (@one_missing_team_is_a_loss plain (battle 1 [("winnerTeam", JNum 2)] []) (JNum 2)
           initial eq_refl Hne (or_introl (conj eq_refl eq_refl))).
Defined.

(** ** Further properties of the message handlers *)

Section FurtherDecoders.
Context {renderer : Renderer}.

Lemma forEach_results_return results : forall w,
  fst (forEach results onBattleResult w) = Normal tt.
Proof.
  induction results as [|r rest IH]; intros w; [reflexivity|].
  cbn [forEach]. unfold bind.
  pose proof (onBattleResult_returns r w) as Hr.
  destruct (onBattleResult r w) as [[[]|e] w']; [apply IH|discriminate Hr].
Qed.

Lemma onMessage_A_batch messages w :
  VariantA.onMessage (Json (JArr messages)) w = forEach messages VariantA.onJsonRpcMessage w.
Proof. reflexivity. Qed.

Lemma onJsonRpcMessage_outcome m w :
  if rejected_A m then VariantA.onJsonRpcMessage m w = (Throw TypeError, w)
  else fst (VariantA.onJsonRpcMessage m w) = Normal tt.
Proof.
  destruct m as [| |b|n|s|l|fields]; try reflexivity.
  rewrite onJsonRpcMessage_obj. cbv beta zeta.
  unfold rejected_A. rewrite !field_obj. cbn [nullish orb].
  destruct (strict_eq (default JUndefined (fields !! "method")) (JStr "subscription")).
  { destruct (default JUndefined (fields !! "params")); cbn [nullish prop];
      first [reflexivity | apply onBattleResult_returns]. }
  destruct (truthy (default JUndefined (fields !! "result"))) eqn:Hr; cbn [andb].
  2:{ destruct (truthy (default JUndefined (fields !! "error"))); reflexivity. }
  destruct (strict_eq (default JUndefined (fields !! "id")) (JNum 1)); cbn [andb].
  2:{ destruct (truthy (default JUndefined (fields !! "error"))); reflexivity. }
  unfold for_of, bind, eval. rewrite (prop_field _ "battleResults" Hr).
  destruct (field "battleResults" (default JUndefined (fields !! "result")));
    cbn [iterable negb iterate]; first [reflexivity | apply forEach_results_return].
Qed.

(** X7: [onJsonRpcMessage] throws a TypeError on exactly three kinds of
    message ([null]; a notification without [params]; the reply to
    request 1 whose [result] holds nothing iterable under
    [battleResults]) and then has changed nothing; on every other value
    it returns normally. *)
Theorem onJsonRpcMessage_throws_exactly (message : value) (w : world) :
  (rejected_A message = true /\
   VariantA.onJsonRpcMessage message w = (Throw TypeError, w)) \/
  (rejected_A message = false /\
   fst (VariantA.onJsonRpcMessage message w) = Normal tt).
Proof.
  pose proof (onJsonRpcMessage_outcome message w) as Ho.
  destruct (rejected_A message); [left|right]; split; trivial.
Qed.

Lemma forEach_abort bad rest good : forall w,
  forallb (fun m => negb (rejected_A m)) good = true ->
  rejected_A bad = true ->
  forEach (good ++ bad :: rest) VariantA.onJsonRpcMessage w =
  (Throw TypeError, snd (forEach good VariantA.onJsonRpcMessage w)).
Proof.
  induction good as [|m good' IH]; intros w Hgood Hbad.
  - cbn [app forEach]. unfold bind.
    pose proof (onJsonRpcMessage_outcome bad w) as Ho. rewrite Hbad in Ho.
    rewrite Ho. reflexivity.
  - cbn [forallb] in Hgood. apply andb_prop in Hgood as [Hm Hrest].
    apply negb_true_iff in Hm.
    cbn [app forEach]. unfold bind.
    pose proof (onJsonRpcMessage_outcome m w) as Ho. rewrite Hm in Ho.
    destruct (VariantA.onJsonRpcMessage m w) as [[[]|e] w']; [|discriminate Ho].
    apply IH; assumption.
Qed.

(** X8: a batch is processed up to its first message that throws: the
    messages before it have had their effect, that message and all after
    it have none, and the handler ends with the TypeError. *)
Theorem batch_stops_at_first_rejected (good : list value) (bad : value) (rest : list value)
    (w : world) :
  forallb (fun m => negb (rejected_A m)) good = true ->
  rejected_A bad = true ->
  VariantA.onMessage (Json (JArr (good ++ bad :: rest))) w =
  (Throw TypeError, snd (VariantA.onMessage (Json (JArr good)) w)).
Proof.
  intros Hgood Hbad. rewrite !onMessage_A_batch. apply forEach_abort; assumption.
Qed.

(** X9: [onMessage] of variant B, on any JSON value.  It throws a
    TypeError, having changed nothing, on [null] and on a BATTLE_RESULT
    without [payload]; otherwise it processes payload.result of a
    BATTLE_RESULT, logs the payload of an ERROR, and passes over
    everything else, arrays and batches included. *)
Theorem envelope_handling (m : value) (w : world) :
  VariantB.onMessage (Json m) w =
  if rejected_B m then (Throw TypeError, w)
  else perform_all "Protocol Error:" (decode_envelope m) w.
Proof.
  destruct m as [| |b|n|s|l|fields]; try reflexivity.
  rewrite onMessage_B_obj. cbv beta zeta.
  unfold rejected_B, decode_envelope. rewrite !key_is_string_obj, !field_obj.
  cbn [nullish orb].
  destruct (strict_eq (default JUndefined (fields !! "messageType")) (JStr "BATTLE_RESULT")).
  - cbn [andb lookup_path].
    destruct (fields !! "payload") as [[| |b|n|s|l|payload]|];
      cbn [default from_option id nullish prop perform_all]; try reflexivity.
    destruct (payload !! "result") as [r|]; cbn [default from_option id perform_all perform].
    + symmetry. apply bind_ret_unit.
    + reflexivity.
  - cbn [andb].
    destruct (strict_eq (default JUndefined (fields !! "messageType")) (JStr "ERROR"));
      reflexivity.
Qed.

(** X6: a frame that is not JSON ends the handler with a SyntaxError
    before anything is done; in every state the page can reach, such a
    message event leaves the state exactly as it was.  In both variants. *)
Theorem malformed_frame_changes_nothing :
  (forall w, VariantA.onMessage Malformed w = (Throw SyntaxError, w)) /\
  (forall w, VariantB.onMessage Malformed w = (Throw SyntaxError, w)) /\
  (forall events,
     VariantA.dispatch (Message Malformed) (VariantA.run events VariantA.boot) =
     VariantA.run events VariantA.boot) /\
  (forall events,
     VariantB.dispatch (Message Malformed) (VariantB.run events VariantB.boot) =
     VariantB.run events VariantB.boot).
Proof.
  split; [reflexivity|]. split; [reflexivity|]. split; intros events.
  - destruct (wired_A events) as [Hl _].
    unfold VariantA.dispatch. rewrite (dispatch_wired _ _ _ _ Hl). reflexivity.
  - destruct (wired_B events) as [Hl _].
    unfold VariantB.dispatch. rewrite (dispatch_wired _ _ _ _ Hl). reflexivity.
Qed.

End FurtherDecoders.

Lemma batch_stops_at_first_rejected_witness :
  forallb (fun m => negb (rejected_A m)) [notification won_battle] = true /\
  rejected_A JNull = true /\
  @VariantA.onMessage plain
    (Json (JArr ([notification won_battle] ++ JNull :: [notification lost_battle]))) initial =
  (Throw TypeError, snd (@VariantA.onMessage plain (Json (JArr [notification won_battle])) initial)).
Proof.
  split; [reflexivity|]. split; [reflexivity|].
  exact (@batch_stops_at_first_rejected plain [notification won_battle] JNull
           [notification lost_battle] initial eq_refl eq_refl).
Defined.

(** ** Relations kept handler by handler *)

Section HandlerWise.
Context {renderer : Renderer}.
Variable R : world -> world -> Prop.
Hypothesis R_refl : forall w, R w w.
Hypothesis R_trans : forall a b c, R a b -> R b c -> R a c.
Hypothesis R_battle : forall r, keeps R (onBattleResult r).
Hypothesis R_logged : forall label arg w, R w (record (ConsoleError label arg) w).

Lemma handlerwise_onJsonRpcMessage message : keeps R (VariantA.onJsonRpcMessage message).
Proof.
  unfold VariantA.onJsonRpcMessage.
  apply (keeps_bind R R_trans); [apply (keeps_eval R R_refl)|intros c1].
  destruct (truthy c1).
  - apply (keeps_bind R R_trans); [apply (keeps_eval R R_refl)|intros r; apply R_battle].
  - apply (keeps_bind R R_trans); [apply (keeps_eval R R_refl)|intros c2].
    destruct (truthy c2).
    + apply (keeps_for_of R R_refl R_trans), R_battle.
    + apply (keeps_bind R R_trans); [apply (keeps_eval R R_refl)|intros c3].
      destruct (truthy c3);
        [apply (keeps_console_error R R_refl R_trans R_logged)|apply (keeps_ret R R_refl)].
Qed.

Lemma handlerwise_onMessage_A data : keeps R (VariantA.onMessage data).
Proof.
  unfold VariantA.onMessage.
  apply (keeps_bind R R_trans); [apply (keeps_eval R R_refl)|intros parsed].
  destruct (isArray parsed).
  - apply (keeps_for_of R R_refl R_trans), handlerwise_onJsonRpcMessage.
  - apply handlerwise_onJsonRpcMessage.
Qed.

Lemma handlerwise_onMessage_B data : keeps R (VariantB.onMessage data).
Proof.
  unfold VariantB.onMessage.
  apply (keeps_bind R R_trans); [apply (keeps_eval R R_refl)|intros message].
  apply (keeps_bind R R_trans); [apply (keeps_eval R R_refl)|intros c1].
  destruct (truthy c1).
  - apply (keeps_bind R R_trans); [apply (keeps_eval R R_refl)|intros r; apply R_battle].
  - apply (keeps_bind R R_trans); [apply (keeps_eval R R_refl)|intros c2].
    destruct (truthy c2);
      [apply (keeps_console_error R R_refl R_trans R_logged)|apply (keeps_ret R R_refl)].
Qed.

Hypothesis R_disconnect : keeps R onDisconnect.
Hypothesis R_sent : forall frame w, R w (record (Sent frame) w).

Lemma handlerwise_run_A events : forall w, R w (VariantA.run events w).
Proof.
  induction events as [|e rest IH]; intros w; [apply R_refl|].
  change (VariantA.run (e :: rest) w) with (VariantA.run rest (VariantA.dispatch e w)).
  eapply R_trans; [|apply IH].
  unfold VariantA.dispatch, dispatch.
  apply (keeps_fold R R_refl R_trans (fun h => call VariantA.onOpen VariantA.onMessage h e)).
  intros [| |]; cbn [call];
    [apply (keeps_onOpen_A R R_refl R_trans R_sent)|apply handlerwise_onMessage_A|exact R_disconnect].
Qed.

Lemma handlerwise_run_B events : forall w, R w (VariantB.run events w).
Proof.
  induction events as [|e rest IH]; intros w; [apply R_refl|].
  change (VariantB.run (e :: rest) w) with (VariantB.run rest (VariantB.dispatch e w)).
  eapply R_trans; [|apply IH].
  unfold VariantB.dispatch, dispatch.
  apply (keeps_fold R R_refl R_trans (fun h => call VariantB.onOpen VariantB.onMessage h e)).
  intros [| |]; cbn [call];
    [apply (keeps_onOpen_B R R_refl R_trans R_sent)|apply handlerwise_onMessage_B|exact R_disconnect].
Qed.

End HandlerWise.

(** ** Further properties of the running page *)

Section FurtherPage.
Context {renderer : Renderer}.

Lemma passes_refl P w : passes P w w.
Proof. intros Hp. exact Hp. Qed.

Lemma passes_trans P a b c : passes P a b -> passes P b c -> passes P a c.
Proof. unfold passes. auto. Qed.

Lemma page_is_current_after_render w : page_is_current (after_render w).
Proof. reflexivity. Qed.

(** X10: in every state the page can reach, what the page shows is the
    rendering of the current counters and flag: no handler changes the
    state without a call of [render] after it.  In both variants. *)
Theorem page_always_current (events : list event) :
  page_is_current (VariantA.run events VariantA.boot) /\
  page_is_current (VariantB.run events VariantB.boot).
Proof.
  assert (Hb : forall r, keeps (passes page_is_current) (onBattleResult r)).
  { intros r w Hp. rewrite onBattleResult_runs.
    destruct (in_scope r); [destruct (strict_eq _ _)|];
      first [apply page_is_current_after_render | exact Hp]. }
  assert (Hd : keeps (passes page_is_current) onDisconnect).
  { intros w _. apply page_is_current_after_render. }
  split.
  - apply (handlerwise_run_A (passes page_is_current) (passes_refl _) (passes_trans _)
             Hb (fun _ _ _ Hp => Hp) Hd (fun _ _ Hp => Hp) events VariantA.boot).
    reflexivity.
  - apply (handlerwise_run_B (passes page_is_current) (passes_refl _) (passes_trans _)
             Hb (fun _ _ _ Hp => Hp) Hd (fun _ _ Hp => Hp) events VariantB.boot).
    reflexivity.
Qed.

Lemma same_flag_trans a b c : same_flag a b -> same_flag b c -> same_flag a c.
Proof. unfold same_flag. congruence. Qed.

Lemma flag_after_dispatch_A e w :
  listeners w = wiring ->
  showDisconnectedHint (VariantA.dispatch e w) = showDisconnectedHint w || is_disconnect e.
Proof.
  intros Hl. unfold VariantA.dispatch. rewrite (dispatch_wired _ _ _ _ Hl).
  destruct e; cbn [handler_of call is_disconnect]; rewrite ?orb_false_r, ?orb_true_r;
    try reflexivity.
  - apply (keeps_onOpen_A same_flag); first [exact same_flag_trans | reflexivity].
  - apply (keeps_onMessage_A same_flag); first [exact same_flag_trans | reflexivity].
Qed.

Lemma flag_after_dispatch_B e w :
  listeners w = wiring ->
  showDisconnectedHint (VariantB.dispatch e w) = showDisconnectedHint w || is_disconnect e.
Proof.
  intros Hl. unfold VariantB.dispatch. rewrite (dispatch_wired _ _ _ _ Hl).
  destruct e; cbn [handler_of call is_disconnect]; rewrite ?orb_false_r, ?orb_true_r;
    try reflexivity.
  - apply (keeps_onOpen_B same_flag); first [exact same_flag_trans | reflexivity].
  - apply (keeps_onMessage_B same_flag); first [exact same_flag_trans | reflexivity].
Qed.

Lemma listeners_after_dispatch_A e w : listeners (VariantA.dispatch e w) = listeners w.
Proof.
  apply (keeps_dispatch_A same_wiring same_wiring_refl same_wiring_trans);
    intros; split; reflexivity.
Qed.

Lemma listeners_after_dispatch_B e w : listeners (VariantB.dispatch e w) = listeners w.
Proof.
  apply (keeps_dispatch_B same_wiring same_wiring_refl same_wiring_trans);
    intros; split; reflexivity.
Qed.

Lemma flag_after_run_A events : forall w,
  listeners w = wiring ->
  showDisconnectedHint (VariantA.run events w) =
  showDisconnectedHint w || existsb is_disconnect events.
Proof.
  induction events as [|e rest IH]; intros w Hl; [symmetry; apply orb_false_r|].
  change (VariantA.run (e :: rest) w) with (VariantA.run rest (VariantA.dispatch e w)).
  rewrite IH by (rewrite listeners_after_dispatch_A; exact Hl).
  rewrite (flag_after_dispatch_A e w Hl). cbn [existsb]. symmetry. apply orb_assoc.
Qed.

Lemma flag_after_run_B events : forall w,
  listeners w = wiring ->
  showDisconnectedHint (VariantB.run events w) =
  showDisconnectedHint w || existsb is_disconnect events.
Proof.
  induction events as [|e rest IH]; intros w Hl; [symmetry; apply orb_false_r|].
  change (VariantB.run (e :: rest) w) with (VariantB.run rest (VariantB.dispatch e w)).
  rewrite IH by (rewrite listeners_after_dispatch_B; exact Hl).
  rewrite (flag_after_dispatch_B e w Hl). cbn [existsb]. symmetry. apply orb_assoc.
Qed.

(** X11: the disconnected flag is set exactly when a close or an error
    event has been delivered: open and message events, whatever they
    carry, never set it.  In both variants. *)
Theorem flag_tells_disconnects (events : list event) :
  showDisconnectedHint (VariantA.run events VariantA.boot) = existsb is_disconnect events /\
  showDisconnectedHint (VariantB.run events VariantB.boot) = existsb is_disconnect events.
Proof.
  split.
  - apply (flag_after_run_A events VariantA.boot). reflexivity.
  - apply (flag_after_run_B events VariantB.boot). reflexivity.
Qed.

Lemma same_connections_refl w : same_connections w w.
Proof. reflexivity. Qed.

Lemma same_connections_trans a b c :
  same_connections a b -> same_connections b c -> same_connections a c.
Proof. unfold same_connections. congruence. Qed.

Lemma connections_app l1 l2 : connections (l1 ++ l2) = connections l1 ++ connections l2.
Proof. apply flat_map_app. Qed.

Ltac same_connections_side :=
  intros; unfold same_connections; simpl; rewrite ?connections_app; simpl;
  rewrite ?app_nil_r; reflexivity.

(** X12: the page connects once and never again: whatever events arrive,
    close and error included, exactly one socket has been constructed,
    to the variant's SERVER_ADDRESS, and its four listeners are the ones
    registered at the start. *)
Theorem one_connection_for_life (events : list event) :
  (connections (log (VariantA.run events VariantA.boot)) = ["ws://localhost:15455"%string] /\
   ws (VariantA.run events VariantA.boot) = Some "ws://localhost:15455"%string /\
   listeners (VariantA.run events VariantA.boot) = wiring) /\
  (connections (log (VariantB.run events VariantB.boot)) = ["ws://localhost:61942"%string] /\
   ws (VariantB.run events VariantB.boot) = Some "ws://localhost:61942"%string /\
   listeners (VariantB.run events VariantB.boot) = wiring).
Proof.
  split.
  - destruct (wired_A events) as [Hl Hs]. split; [|split; assumption].
    apply (keeps_run_A same_connections same_connections_refl same_connections_trans);
      same_connections_side.
  - destruct (wired_B events) as [Hl Hs]. split; [|split; assumption].
    apply (keeps_run_B same_connections same_connections_refl same_connections_trans);
      same_connections_side.
Qed.

End FurtherPage.

Section FurtherRates.
Context {renderer : Renderer}.

Lemma js_div_unit v l : 0 <= v -> 0 <= l -> unit_rate (js_div v (l + v)).
Proof.
  intros Hv Hl. unfold js_div.
  destruct (Z.eqb_spec (l + v) 0) as [E|E].
  - assert (Ev : v = 0) by lia. subst v. exact I.
  - assert (Hd : (0 < inject_Z (l + v))%Q).
    { change 0%Q with (inject_Z 0). rewrite <- Zlt_Qlt. lia. }
    split.
    + apply Qle_shift_div_l; [exact Hd|].
      rewrite Qmult_0_l. change 0%Q with (inject_Z 0). rewrite <- Zle_Qle. exact Hv.
    + apply Qle_shift_div_r; [exact Hd|].
      rewrite Qmult_1_l. rewrite <- Zle_Qle. lia.
Qed.

Lemma js_div_nan v l : 0 <= v -> 0 <= l -> (js_div v (l + v) = NaN <-> v + l = 0).
Proof.
  intros Hv Hl. unfold js_div.
  destruct (Z.eqb_spec (l + v) 0) as [E|E].
  - assert (Ev : v = 0) by lia. subst v. split; [lia|reflexivity].
  - split; [discriminate|lia].
Qed.

(** X13: in every state the page can reach, the win rate [render]
    computes is either not a number, which happens exactly when no game
    has been counted, or a fraction from 0 to 1; it is never infinite.
    In both variants. *)
Theorem win_rate_is_a_fraction (events : list event) :
  (let w := VariantA.run events VariantA.boot in
   unit_rate (js_div (victoryCount w) (lossCount w + victoryCount w)) /\
   (js_div (victoryCount w) (lossCount w + victoryCount w) = NaN <->
    victoryCount w + lossCount w = 0)) /\
  (let w := VariantB.run events VariantB.boot in
   unit_rate (js_div (victoryCount w) (lossCount w + victoryCount w)) /\
   (js_div (victoryCount w) (lossCount w + victoryCount w) = NaN <->
    victoryCount w + lossCount w = 0)).
Proof.
  cbv zeta. split.
  - destruct (counters_le_run_A events VariantA.boot) as [Hv Hl].
    split; [apply js_div_unit|apply js_div_nan]; assumption.
  - destruct (counters_le_run_B events VariantB.boot) as [Hv Hl].
    split; [apply js_div_unit|apply js_div_nan]; assumption.
Qed.

Lemma listeners_after_onJsonRpcMessage m w :
  listeners (snd (VariantA.onJsonRpcMessage m w)) = listeners w.
Proof.
  apply (keeps_onJsonRpcMessage same_wiring same_wiring_refl same_wiring_trans);
    intros; split; reflexivity.
Qed.

Lemma batch_one_by_one messages : forall w,
  listeners w = wiring ->
  forallb (fun m => negb (rejected_A m) && negb (isArray m)) messages = true ->
  snd (forEach messages VariantA.onJsonRpcMessage w) = VariantA.run (one_by_one messages) w.
Proof.
  induction messages as [|m rest IH]; intros w Hl Hok; [reflexivity|].
  cbn [forallb] in Hok. apply andb_prop in Hok as [Hm Hrest].
  apply andb_prop in Hm as [Hrej Harr].
  apply negb_true_iff in Hrej. apply negb_true_iff in Harr.
  change (VariantA.run (one_by_one (m :: rest)) w)
    with (VariantA.run (one_by_one rest) (VariantA.dispatch (Message (Json m)) w)).
  unfold VariantA.dispatch at 1. rewrite (dispatch_wired _ _ _ _ Hl).
  cbn [handler_of call event_data]. rewrite (onMessage_A_single m w Harr).
  cbn [forEach]. unfold bind.
  pose proof (onJsonRpcMessage_outcome m w) as Ho. rewrite Hrej in Ho.
  pose proof (listeners_after_onJsonRpcMessage m w) as Hl'.
  destruct (VariantA.onJsonRpcMessage m w) as [[[]|e] w']; [|discriminate Ho].
  apply IH; [exact (eq_trans Hl' Hl)|exact Hrest].
Qed.

(** X14: a batch none of whose messages throws has the same effect as
    its messages delivered one frame each, in the same order (the
    messages being objects or other non-array values). *)
Theorem batch_is_its_messages_in_turn (messages : list value) (events : list event) :
  forallb (fun m => negb (rejected_A m) && negb (isArray m)) messages = true ->
  VariantA.dispatch (Message (Json (JArr messages))) (VariantA.run events VariantA.boot) =
  VariantA.run (one_by_one messages) (VariantA.run events VariantA.boot).
Proof.
  intros Hok. destruct (wired_A events) as [Hl _].
  unfold VariantA.dispatch at 1. rewrite (dispatch_wired _ _ _ _ Hl).
  cbn [handler_of call event_data]. rewrite onMessage_A_batch.
  apply batch_one_by_one; assumption.
Qed.

Lemma won_lost_in_scope r :
  won r = in_scope r && strict_eq (chain team_path r) (chain winnerTeam_path r) /\
  lost r = in_scope r && negb (strict_eq (chain team_path r) (chain winnerTeam_path r)).
Proof.
  unfold won, lost. rewrite isRandomBattle_in_scope, isVictory_chain.
  destruct (in_scope r), (strict_eq _ _); split; reflexivity.
Qed.

Lemma tally_forEach results : forall w,
  let w' := snd (forEach results onBattleResult w) in
  victoryCount w' = victoryCount w + Z.of_nat (length (List.filter won results)) /\
  lossCount w' = lossCount w + Z.of_nat (length (List.filter lost results)) /\
  length (renders (log w')) =
    (length (renders (log w)) + length (List.filter won results)
     + length (List.filter lost results))%nat.
Proof.
  induction results as [|r rest IH]; intros w; cbv zeta.
  - simpl. repeat split; lia.
  - cbn [forEach List.filter]. unfold bind.
    destruct (won_lost_in_scope r) as [Hw Hl]. rewrite Hw, Hl.
    rewrite onBattleResult_runs.
    destruct (in_scope r); [destruct (strict_eq _ _)|]; cbn [andb negb];
      match goal with
      | |- context [forEach rest onBattleResult ?x] =>
          destruct (IH x) as (Hv & Hlo & Hr); rewrite Hv, Hlo, Hr
      end;
      simpl; rewrite ?renders_app, ?length_app; simpl; repeat split; lia.
Qed.

(** X15: the reply to [get_battle_results] is tallied: with results
    [battleResults] it returns normally, adds to victoryCount the number
    of them that are in-scope victories, to lossCount the number that are
    in-scope losses or draws, and calls [render] once for each of
    either kind and not at all for the others. *)
Theorem history_is_tallied (battleResults : list value) (w : world) :
  let w' := snd (VariantA.onMessage (Json (history_reply battleResults)) w) in
  fst (VariantA.onMessage (Json (history_reply battleResults)) w) = Normal tt /\
  victoryCount w' = victoryCount w + Z.of_nat (length (List.filter won battleResults)) /\
  lossCount w' = lossCount w + Z.of_nat (length (List.filter lost battleResults)) /\
  length (renders (log w')) =
    (length (renders (log w)) + length (List.filter won battleResults)
     + length (List.filter lost battleResults))%nat.
Proof.
  assert (E : VariantA.onMessage (Json (history_reply battleResults)) w =
              forEach battleResults onBattleResult w) by reflexivity.
  cbv zeta. rewrite E. split; [apply forEach_results_return|apply tally_forEach].
Qed.

End FurtherRates.

Lemma batch_is_its_messages_in_turn_witness :
  forallb (fun m => negb (rejected_A m) && negb (isArray m))
    [history_reply [won_battle; lost_battle]; subscribe_reply; notification won_battle;
     error_reply] = true /\
  @VariantA.dispatch plain (Message (Json sample_batch)) (@VariantA.run plain [Open] (@VariantA.boot plain)) =
  @VariantA.run plain
    (one_by_one [history_reply [won_battle; lost_battle]; subscribe_reply;
                 notification won_battle; error_reply])
    (@VariantA.run plain [Open] (@VariantA.boot plain)).
Proof.
  split; [reflexivity|].
  exact (@batch_is_its_messages_in_turn plain
           [history_reply [won_battle; lost_battle]; subscribe_reply;
            notification won_battle; error_reply]
           [Open] eq_refl).
Defined.
